(** * Shallow embedding of src/scraper-script.py (au-scraper)

    The captcha solver ([CaptchaSolver]) and the login retry loop
    ([AUInfoExtractor.login]).  numpy 2-D arrays are lists of rows of [Z];
    Python floats produced by the scorer are exact rationals, NaN or +inf
    (the cells have at most a few thousand pixels, so the float results of
    [(m / t) * 100] keep the order and the equalities of the rationals). *)

From Stdlib Require Import String Ascii List ZArith QArith Lia.
From Stdlib Require Import DecimalString.
Import ListNotations.
Open Scope Z_scope.

(** ** Exceptions and log records *)

Inductive exn :=
| ValueError            (* numpy: operands could not be broadcast together *)
| IndexError            (* str index out of range *)
| OSError               (* PIL: image cannot be opened / decoded *)
| TimeoutException      (* selenium WebDriverWait *)
| WebDriverException    (* any other selenium failure *)
| UnboundLocalError.    (* local variable referenced before assignment *)

Inductive log :=
| LErrPreprocess                (* "Error preprocessing image" *)
| LErrMatch                     (* "Error calculating match percentage" *)
| LLowConfidence (pos : nat)    (* "Low confidence match for character at position i" *)
| LErrSolve.                    (* "Error solving captcha" *)

Inductive result (A : Type) := Ok (a : A) | Err (e : exn).
Arguments Ok {A} a.
Arguments Err {A} e.

(** A small writer-and-error monad: the logger plus Python exceptions. *)
Definition M (A : Type) : Type := list log * result A.

Definition ret {A} (a : A) : M A := ([], Ok a).
Definition raise {A} (ls : list log) (e : exn) : M A := (ls, Err e).
Definition tell (ls : list log) : M unit := (ls, Ok tt).
Definition bind {A B} (m : M A) (f : A -> M B) : M B :=
  match m with
  | (l, Ok a) => let '(l', r) := f a in (l ++ l', r)
  | (l, Err e) => (l, Err e)
  end.
(** [except Exception as e: logger.error(...); raise] *)
Definition log_reraise {A} (msg : log) (m : M A) : M A :=
  match m with
  | (l, Err e) => (l ++ [msg], Err e)
  | ok => ok
  end.

Notation "x <- m ;; k" := (bind m (fun x => k))
  (at level 61, m at next level, right associativity).

(** ** numpy arrays *)

Definition matrix := list (list Z).

(** [arr.shape] of a 2-D array stored row by row. *)
Definition shape (m : matrix) : nat * nat :=
  (length m, match m with [] => 0%nat | r :: _ => length r end).

(** [arr.size] *)
Definition size (m : matrix) : nat := (fst (shape m) * snd (shape m))%nat.

(** All [r] rows have [c] columns. *)
Definition is_rect (r c : nat) (m : matrix) : bool :=
  Nat.eqb (length m) r && forallb (fun row => Nat.eqb (length row) c) m.

(** Broadcasting of one dimension: equal, or one of the two is 1. *)
Definition bdim (a b : nat) : option nat :=
  if Nat.eqb a b then Some a
  else if Nat.eqb a 1 then Some b
  else if Nat.eqb b 1 then Some a
  else None.

Definition broadcast (s1 s2 : nat * nat) : option (nat * nat) :=
  match bdim (fst s1) (fst s2), bdim (snd s1) (snd s2) with
  | Some r, Some c => Some (r, c)
  | _, _ => None
  end.

(** Element [(i, j)] of [m] seen through broadcasting. *)
Definition bget (m : matrix) (i j : nat) : Z :=
  let '(r, c) := shape m in
  nth (if Nat.eqb c 1 then 0%nat else j)
      (nth (if Nat.eqb r 1 then 0%nat else i) m []) 0.

(** [np.sum(a == b)] over a broadcast shape [r x c]. *)
Definition count_equal (a b : matrix) (r c : nat) : nat :=
  fold_right plus 0%nat
    (map (fun i => length (filter (fun j => Z.eqb (bget a i j) (bget b i j))
                                  (seq 0 c)))
         (seq 0 r)).

(** ** Python floats as produced by the scorer *)

Inductive pyfloat := Num (q : Q) | NaN | PosInf.

(** [x > y] on floats; every comparison with NaN is false. *)
Definition py_gt (x y : pyfloat) : bool :=
  match x, y with
  | Num a, Num b => negb (Qle_bool a b)
  | PosInf, Num _ => true
  | _, _ => false
  end.

Definition py_lt (x y : pyfloat) : bool := py_gt y x.

(** [(np.int64(m) / t) * 100]: numpy scalar division by zero gives NaN
    (0/0) or inf, with a RuntimeWarning but no exception. *)
Definition percent (m t : nat) : pyfloat :=
  if Nat.eqb t 0 then (if Nat.eqb m 0 then NaN else PosInf)
  else Num ((Z.of_nat m # Pos.of_nat t) * 100).

(** ** CaptchaSolver *)

Definition char_map : string := "0123456789ABCDEFGHIJKLMNOPQRSTUVWXYZ".

(** [template_0 = np.array([...], dtype=np.uint8) * 255] *)
Definition template_0 : matrix :=
  map (map (fun x => x * 255))
  [[0; 1; 1; 1; 1; 1; 1; 0];
   [1; 1; 1; 1; 1; 1; 1; 1];
   [1; 1; 0; 0; 0; 0; 1; 1];
   [1; 1; 0; 0; 0; 0; 1; 1];
   [1; 1; 0; 0; 0; 0; 1; 1];
   [1; 1; 0; 0; 0; 0; 1; 1];
   [1; 1; 0; 0; 0; 0; 1; 1];
   [1; 1; 0; 0; 0; 0; 1; 1];
   [1; 1; 1; 1; 1; 1; 1; 1];
   [0; 1; 1; 1; 1; 1; 1; 0]].

(** [_load_test_set]: a list with the single template. *)
Definition load_test_set : list matrix := [template_0].

(** Python slice [l[a:b]] (step 1): negative bounds count from the end,
    both bounds are clamped to [0, len l]. *)
Definition py_slice {A} (l : list A) (a b : Z) : list A :=
  let n := Z.of_nat (length l) in
  let norm x := if x <? 0 then Z.max 0 (x + n) else Z.min x n in
  let na := norm a in
  let nb := norm b in
  firstn (Z.to_nat (nb - na)) (skipn (Z.to_nat na) l).

(** [_extract_character]: [matrix[:, start_x:start_x + 10]]; slicing a
    2-D array with integer bounds raises nothing. *)
Definition extract_character (m : matrix) (position : Z) : M matrix :=
  let start_x := position * 10 in
  ret (map (fun row => py_slice row start_x (start_x + 10)) m).

(** [_calculate_match_percentage]: [char_matrix == test_matrix] raises
    ValueError when the two shapes cannot be broadcast together;
    [total_pixels] is the size of [char_matrix]. *)
Definition calculate_match_percentage (char_matrix test_matrix : matrix)
  : M pyfloat :=
  match broadcast (shape char_matrix) (shape test_matrix) with
  | None => raise [LErrMatch] ValueError
  | Some (r, c) =>
      let matching_pixels := count_equal char_matrix test_matrix r c in
      let total_pixels := size char_matrix in
      ret (percent matching_pixels total_pixels)
  end.

(** [self.char_map[idx]] *)
Definition char_at (idx : nat) : M string :=
  match String.get idx char_map with
  | Some ch => ret (String ch EmptyString)
  | None => raise [] IndexError
  end.

(** Lines 93-100 of [solve]: the running best over the template list,
    replaced only on a strictly greater score. *)
Fixpoint classify_from (char_matrix : matrix) (ts : list matrix) (idx : nat)
  (best_match : pyfloat) (best_char : string) : M (pyfloat * string) :=
  match ts with
  | [] => ret (best_match, best_char)
  | test_matrix :: ts' =>
      match_percent <- calculate_match_percentage char_matrix test_matrix ;;
      if py_gt match_percent best_match then
        ch <- char_at idx ;;
        classify_from char_matrix ts' (S idx) match_percent ch
      else classify_from char_matrix ts' (S idx) best_match best_char
  end.

Definition classify (char_matrix : matrix) (test_set : list matrix)
  : M (pyfloat * string) :=
  classify_from char_matrix test_set 0 (Num 0) "".

Section Solver.

(** [Image.open(image_path).convert('L')]: the file system and PIL's
    decoder, giving the luminance grid or raising. *)
Variable decode : string -> result matrix.
(** PIL's [img.resize((w, h))] on a luminance image. *)
Variable resize : matrix -> nat -> nat -> matrix.

(** [(matrix > 128) * 255] on one pixel. *)
Definition binarize (x : Z) : Z := if 128 <? x then 255 else 0.

(** [_preprocess_image] *)
Definition preprocess_image (image_path : string) : M matrix :=
  log_reraise LErrPreprocess
    (match decode image_path with
     | Err e => raise [] e
     | Ok img => ret (map (map binarize) (resize img 70 20))
     end).

(** The body of [for i in range(6)] in [solve]. *)
Fixpoint solve_positions (test_set : list matrix) (m : matrix)
  (positions : list nat) : M (list string) :=
  match positions with
  | [] => ret []
  | i :: rest =>
      char_matrix <- extract_character m (Z.of_nat i) ;;
      bc <- classify char_matrix test_set ;;
      _ <- (if py_lt (fst bc) (Num 50) then tell [LLowConfidence i]
            else ret tt) ;;
      result <- solve_positions test_set m rest ;;
      ret (snd bc :: result)
  end.

(** [CaptchaSolver.solve], reading [self.test_set] as [test_set]. *)
Definition solve (test_set : list matrix) (captcha_path : string) : M string :=
  log_reraise LErrSolve
    (m <- preprocess_image captcha_path ;;
     result <- solve_positions test_set m (seq 0 6) ;;
     ret (String.concat "" result)).

End Solver.

(** A concrete resize (nearest neighbour), used to run the model on
    concrete images. *)
Definition nn_resize (img : matrix) (w h : nat) : matrix :=
  let '(ih, iw) := shape img in
  map (fun i => map (fun j => nth (j * iw / w) (nth (i * ih / h) img []) 0)
                    (seq 0 w))
      (seq 0 h).

(** A uniform grey-level image of [h] rows and [w] columns. *)
Definition uniform (h w : nat) (v : Z) : matrix := repeat (repeat v w) h.

(** ** AUInfoExtractor.login *)

(** [f"temp_captcha_{attempt}.png"] *)
Definition captcha_path_of (attempt : nat) : string :=
  "temp_captcha_" ++ NilZero.string_of_uint (Nat.to_uint attempt) ++ ".png".

(** The files present on disk. *)
Definition fs := list string.

Definition path_exists (p : string) (f : fs) : bool :=
  existsb (String.eqb p) f.

Definition remove_path (p : string) (f : fs) : fs :=
  filter (fun q => negb (String.eqb p q)) f.

(** [captcha_elem.screenshot(path)]: succeeds having written the file, or
    raises, having written it or not. *)
Inductive shot_outcome :=
| ShotOk
| ShotFail (written : bool) (e : exn).

(** What the browser (and the solver, on the captured image) do during one
    attempt.  [nav] covers [driver.get], the wait for the username field
    and [find_element(captchaImage)]; [submit] the three [send_keys] and
    the click; [dashboard] the final wait. *)
Record attempt_env := {
  nav : option exn;
  shot : shot_outcome;
  solved : result string;
  submit : option exn;
  dashboard : option exn
}.

(** How the [try] body of one attempt ended. *)
Inductive body_res := BReturn (b : bool) | BRaise (e : exn).

(** The [try] body, with the local [captcha_path] ([None] while unbound). *)
Definition attempt_body (env : attempt_env) (attempt : nat)
  (captcha_path : option string) (f : fs)
  : body_res * option string * fs * bool :=
  match nav env with
  | Some e => (BRaise e, captcha_path, f, false)
  | None =>
      let p := captcha_path_of attempt in
      match shot env with
      | ShotFail w e => (BRaise e, Some p, if w then p :: f else f, true)
      | ShotOk =>
          let f' := p :: f in
          match solved env with
          | Err e => (BRaise e, Some p, f', true)
          | Ok _ =>
              match submit env with
              | Some e => (BRaise e, Some p, f', true)
              | None =>
                  match dashboard env with
                  | Some e => (BRaise e, Some p, f', true)
                  | None => (BReturn true, Some p, f', true)
                  end
              end
          end
      end
  end.

(** Control leaving one iteration of the loop. *)
Inductive step_res := SContinue | SReturn (b : bool) | SRaise (e : exn).

(** One record per attempt: index, how the body ended, whether the body got
    past the screenshot call, and the files on disk once [finally] ran. *)
Record entry := {
  e_attempt : nat;
  e_body : body_res;
  e_captured : bool;
  e_fs : fs
}.

(** One attempt: the body, the two [except] clauses (same behaviour: re-raise on
    the last attempt, [continue] otherwise), then [finally], which reads
    [captcha_path] and so raises UnboundLocalError while it is unbound. *)
Definition run_attempt (env : attempt_env) (attempt : nat) (max_retries : Z)
  (captcha_path : option string) (f : fs)
  : step_res * option string * fs * entry :=
  let '(b, cp, f1, cap) := attempt_body env attempt captcha_path f in
  let pending :=
    match b with
    | BReturn v => SReturn v
    | BRaise e =>
        if Z.eqb (Z.of_nat attempt) (max_retries - 1) then SRaise e
        else SContinue
    end in
  match cp with
  | None => (SRaise UnboundLocalError, cp, f1, Build_entry attempt b cap f1)
  | Some p =>
      let f2 := if path_exists p f1 then remove_path p f1 else f1 in
      (pending, cp, f2, Build_entry attempt b cap f2)
  end.

Inductive outcome := Returned (b : bool) | Raised (e : exn).

(** [for attempt in range(max_retries)] from attempt [attempt] with [n]
    iterations left; falling out of the loop is [return False]. *)
Fixpoint login_loop (envs : nat -> attempt_env) (n attempt : nat)
  (max_retries : Z) (captcha_path : option string) (f : fs)
  : outcome * fs * list entry :=
  match n with
  | O => (Returned false, f, [])
  | S n' =>
      let '(r, cp, f', ent) :=
        run_attempt (envs attempt) attempt max_retries captcha_path f in
      match r with
      | SContinue =>
          let '(o, ff, tr) := login_loop envs n' (S attempt) max_retries cp f' in
          (o, ff, ent :: tr)
      | SReturn b => (Returned b, f', [ent])
      | SRaise e => (Raised e, f', [ent])
      end
  end.

(** [login(driver, username, password, max_retries)]: [envs k] is the
    behaviour of the browser during attempt [k]; [f] the files on disk. *)
Definition login (envs : nat -> attempt_env) (max_retries : Z) (f : fs)
  : outcome * fs * list entry :=
  login_loop envs (Z.to_nat max_retries) 0 max_retries None f.

(** ** AUInfoExtractor.extract_marks, extract_info and main *)

(** Exceptions reaching [extract_info] and [main]: the ones above, plus
    [Exception("Failed to login after maximum retries")]. *)
Inductive xexn := XBase (e : exn) | XLoginFailed.

Inductive xresult (A : Type) := XOk (a : A) | XErr (e : xexn).
Arguments XOk {A} a.
Arguments XErr {A} e.

Inductive xlog :=
| XLErrSetup     (* "Error setting up WebDriver" *)
| XLErrMarks     (* "Error extracting marks" *)
| XLErrInfo      (* "Error in information extraction" *)
| XLSaved        (* "Marks data saved to ..." *)
| XLErrMain.     (* "Error: ..." before sys.exit(1) *)

(** The dictionary built for one table row. *)
Record subject := {
  s_code : string; s_name : string; s_internal : string;
  s_external : string; s_total : string; s_result : string
}.

(** The marks page as the driver sees it: whether [driver.get] raises,
    whether an element named "semester" exists, which XPath expressions
    find an element (the driver's XPath engine), and the rows of the
    [marks-table] (the texts of the [td] cells of each [tr]), [None] when the
    table never appears within the wait.  Clicks are taken to succeed. *)
Record marks_page := {
  mp_get : option exn;
  mp_semester_select : bool;
  mp_xpath : string -> bool;
  mp_table : option (list (list string))
}.

(** Python truthiness of an optional string: [None] and [""] are false. *)
Definition truthy (s : option string) : bool :=
  match s with Some v => negb (String.eqb v "") | None => false end.

(** [f"//option[text()='{semester}']"] *)
Definition option_xpath (semester : string) : string :=
  "//option[text()='" ++ semester ++ "']".

(** [cols[i].text] *)
Definition py_index (cols : list string) (i : nat) : result string :=
  match nth_error cols i with Some x => Ok x | None => Err IndexError end.

Definition rbind {A B} (r : result A) (f : A -> result B) : result B :=
  match r with Ok a => f a | Err e => Err e end.

(** The [subject_data] dictionary of one row. *)
Definition row_subject (cols : list string) : result subject :=
  rbind (py_index cols 0) (fun c0 =>
  rbind (py_index cols 1) (fun c1 =>
  rbind (py_index cols 2) (fun c2 =>
  rbind (py_index cols 3) (fun c3 =>
  rbind (py_index cols 4) (fun c4 =>
  rbind (py_index cols 5) (fun c5 =>
  Ok {| s_code := c0; s_name := c1; s_internal := c2;
        s_external := c3; s_total := c4; s_result := c5 |})))))).

(** [for row in rows: ... marks_data.append(subject_data)] *)
Fixpoint marks_rows (rows : list (list string)) : result (list subject) :=
  match rows with
  | [] => Ok []
  | row :: rest =>
      rbind (row_subject row) (fun s =>
      rbind (marks_rows rest) (fun ss => Ok (s :: ss)))
  end.

(** [extract_marks(driver, semester)] *)
Definition extract_marks (page : marks_page) (semester : option string)
  : list xlog * result (list subject) :=
  let body :=
    match mp_get page with
    | Some e => Err e
    | None =>
        let select :=
          match semester with
          | Some s =>
              if truthy semester then
                if mp_semester_select page then
                  if mp_xpath page (option_xpath s) then Ok tt
                  else Err WebDriverException    (* NoSuchElementException *)
                else Err WebDriverException
              else Ok tt
          | None => Ok tt
          end in
        rbind select (fun _ =>
          match mp_table page with
          | None => Err TimeoutException
          | Some rows => marks_rows (skipn 1 rows)    (* rows[1:] *)
          end)
    end in
  match body with
  | Ok d => ([], Ok d)
  | Err e => ([XLErrMarks], Err e)
  end.

(** What [extract_info] meets: [webdriver.Chrome(...)] raising or not, the
    login attempts, the marks page and [driver.quit()]. *)
Record info_env := {
  ie_setup : option exn;
  ie_login : nat -> attempt_env;
  ie_page : marks_page;
  ie_quit : option exn
}.

(** [extract_info(username, password, semester)], with the files on disk;
    the flag says whether [driver.quit()] ran. *)
Definition extract_info (env : info_env) (semester : option string) (f0 : fs)
  : list xlog * xresult (list subject) * bool * fs :=
  match ie_setup env with
  | Some e => ([XLErrSetup; XLErrInfo], XErr (XBase e), false, f0)
  | None =>
      let '(o, f1, _) := login (ie_login env) 3 f0 in
      let '(ls, r) :=
        match o with
        | Raised e => ([XLErrInfo], XErr (XBase e))
        | Returned false => ([XLErrInfo], XErr XLoginFailed)
        | Returned true =>
            match extract_marks (ie_page env) semester with
            | (l, Ok d) => (l, XOk d)
            | (l, Err e) => (l ++ [XLErrInfo], XErr (XBase e))
            end
        end in
      match ie_quit env with
      | Some e => (ls, XErr (XBase e), true, f1)
      | None => (ls, r, true, f1)
      end
  end.

(** The parsed command line. *)
Record args := {
  a_username : string; a_password : string;
  a_semester : option string; a_output : option string
}.

Record main_env := {
  me_info : info_env;
  me_open : option exn     (* open(args.output, 'w') raising *)
}.

Inductive effect := Print (s : string) | WriteJson (path : string) (data : list subject).

Definition newline : string := String (ascii_of_nat 10) EmptyString.

(** The five [print] calls for one subject. *)
Definition print_subject (s : subject) : list effect :=
  [Print (newline ++ "Subject: " ++ s_name s ++ " (" ++ s_code s ++ ")");
   Print ("Internal: " ++ s_internal s);
   Print ("External: " ++ s_external s);
   Print ("Total: " ++ s_total s);
   Print ("Result: " ++ s_result s)].

(** [main()] after argument parsing: the log, the output effects and the
    exit status (0 when [main] returns, 1 from [sys.exit(1)]). *)
Definition main (env : main_env) (a : args) (f0 : fs)
  : list xlog * list effect * Z :=
  let '(ls, r, _, _) := extract_info (me_info env) (a_semester a) f0 in
  match r with
  | XErr _ => (ls ++ [XLErrMain], [], 1)
  | XOk [] => (ls, [], 0)
  | XOk marks_data =>
      match a_output a with
      | Some p =>
          if truthy (a_output a) then
            match me_open env with
            | Some _ => (ls ++ [XLErrMain], [], 1)
            | None => (ls ++ [XLSaved], [WriteJson p marks_data], 0)
            end
          else (ls, concat (map print_subject marks_data), 0)
      | None => (ls, concat (map print_subject marks_data), 0)
      end
  end.

(** * Properties *)

Lemma let_pair_id {A B} (p : A * B) : (let '(x, y) := p in (x, y)) = p.
Proof. destruct p; reflexivity. Qed.

Ltac mstep := cbn [bind ret raise tell log_reraise fst snd app]; rewrite ?let_pair_id.

(** ** Shapes *)

Lemma is_rect_spec (r c : nat) (m : matrix) :
  is_rect r c m = true <-> length m = r /\ Forall (fun row => length row = c) m.
Proof.
  unfold is_rect. rewrite andb_true_iff, Nat.eqb_eq, forallb_forall, Forall_forall.
  split; intros [H1 H2]; split; auto; intros x Hx; apply Nat.eqb_eq; auto.
Qed.

Lemma shape_rect (r c : nat) (m : matrix) :
  is_rect r c m = true -> (0 < r)%nat -> shape m = (r, c).
Proof.
  intros H Hr. apply is_rect_spec in H as [Hl Hf].
  destruct m as [|row m']; simpl in *; [lia|].
  inversion Hf; subst. reflexivity.
Qed.

Lemma is_rect_map (r c : nat) (f : Z -> Z) (m : matrix) :
  is_rect r c m = true -> is_rect r c (map (map f) m) = true.
Proof.
  rewrite !is_rect_spec. intros [Hl Hf]. split.
  - rewrite length_map. exact Hl.
  - apply Forall_map. eapply Forall_impl; [|exact Hf].
    intros row Hrow. rewrite length_map. exact Hrow.
Qed.

Lemma py_slice_length {A} (l : list A) (a : Z) :
  0 <= a ->
  length (py_slice l a (a + 10)) =
  Z.to_nat (Z.min 10 (Z.max 0 (Z.of_nat (length l) - a))).
Proof.
  intros Ha. unfold py_slice.
  rewrite length_firstn, length_skipn.
  destruct (a <? 0) eqn:E1; [apply Z.ltb_lt in E1; lia|].
  destruct (a + 10 <? 0) eqn:E2; [apply Z.ltb_lt in E2; lia|].
  lia.
Qed.

Lemma extract_rect (h w : nat) (m : matrix) (p : Z) :
  is_rect h w m = true -> 0 <= p ->
  is_rect h (Z.to_nat (Z.min 10 (Z.max 0 (Z.of_nat w - 10 * p))))
    (map (fun row => py_slice row (p * 10) (p * 10 + 10)) m) = true.
Proof.
  rewrite !is_rect_spec. intros [Hl Hf] Hp. split.
  - rewrite length_map. exact Hl.
  - apply Forall_map. eapply Forall_impl; [|exact Hf].
    intros row Hrow. rewrite py_slice_length by lia. rewrite Hrow.
    f_equal. lia.
Qed.

Lemma preprocess_image_ok decode resize path g :
  decode path = Ok g ->
  preprocess_image decode resize path =
  ([], Ok (map (map binarize) (resize g 70%nat 20%nat))).
Proof. intros H. unfold preprocess_image. rewrite H. reflexivity. Qed.

Lemma binarize_values (x : Z) : binarize x = 0 \/ binarize x = 255.
Proof. unfold binarize. destruct (128 <? x); auto. Qed.

(** ** C7 *)

(** C7: for a decodable image whose resize to (70, 20) is a 20 x 70 grid,
    [_preprocess_image] returns a 20 x 70 matrix whose pixel [(i, j)] is 255
    when the resized luminance there is strictly above 128 and 0 otherwise;
    every element is 0 or 255. *)
Theorem preprocess_image_shape_and_threshold decode resize path g :
  decode path = Ok g ->
  is_rect 20 70 (resize g 70%nat 20%nat) = true ->
  exists m,
    preprocess_image decode resize path = ([], Ok m) /\
    is_rect 20 70 m = true /\
    (forall i j, nth j (nth i m []) 0 =
       if 128 <? nth j (nth i (resize g 70%nat 20%nat) []) 0 then 255 else 0) /\
    Forall (Forall (fun x => x = 0 \/ x = 255)) m.
Proof.
  intros Hd Hr. exists (map (map binarize) (resize g 70%nat 20%nat)).
  split; [apply preprocess_image_ok; exact Hd|].
  split; [apply is_rect_map; exact Hr|].
  split.
  - intros i j.
    change [] with (map binarize []).
    rewrite map_nth.
    change 0 with (binarize 0) at 1.
    rewrite map_nth. reflexivity.
  - apply Forall_forall. intros row Hrow. apply in_map_iff in Hrow.
    destruct Hrow as [row0 [<- _]].
    apply Forall_forall. intros x Hx. apply in_map_iff in Hx.
    destruct Hx as [x0 [<- _]]. apply binarize_values.
Qed.

(** ** C2 *)

Lemma template_0_shape : shape template_0 = (10%nat, 8%nat).
Proof. reflexivity. Qed.

Lemma mismatch_raises (cell : matrix) :
  shape cell = (20%nat, 10%nat) ->
  calculate_match_percentage cell template_0 = ([LErrMatch], Err ValueError).
Proof.
  intros H. unfold calculate_match_percentage. rewrite H, template_0_shape.
  reflexivity.
Qed.

Lemma shipped_cell_shape (m : matrix) (i : nat) :
  is_rect 20 70 m = true -> (i < 6)%nat ->
  shape (map (fun row => py_slice row (Z.of_nat i * 10) (Z.of_nat i * 10 + 10)) m)
  = (20%nat, 10%nat).
Proof.
  intros Hm Hi. apply shape_rect; [|lia].
  replace 10%nat with (Z.to_nat (Z.min 10 (Z.max 0 (Z.of_nat 70 - 10 * Z.of_nat i))))
    at 2 by lia.
  apply extract_rect; [exact Hm | lia].
Qed.

(** C2: in the shipped pipeline every cell of positions 0..5 is 20 x 10,
    the only template is 10 x 8, the two shapes cannot be broadcast and the
    comparison raises ValueError; [solve] with the shipped library raises it
    on every decodable image. *)
Theorem shipped_cells_never_match_template_shape decode resize path g :
  decode path = Ok g ->
  is_rect 20 70 (resize g 70%nat 20%nat) = true ->
  exists m,
    preprocess_image decode resize path = ([], Ok m) /\
    (forall i, (i < 6)%nat ->
       exists cell,
         extract_character m (Z.of_nat i) = ([], Ok cell) /\
         shape cell = (20%nat, 10%nat) /\
         Forall (fun t => shape t = (10%nat, 8%nat) /\ shape cell <> shape t /\
                   calculate_match_percentage cell t = ([LErrMatch], Err ValueError))
                load_test_set) /\
    solve decode resize load_test_set path = ([LErrMatch; LErrSolve], Err ValueError).
Proof.
  intros Hd Hr.
  pose proof (is_rect_map _ _ binarize _ Hr) as Hm.
  set (m := map (map binarize) (resize g 70%nat 20%nat)) in *.
  exists m. split; [apply preprocess_image_ok; exact Hd|]. split.
  - intros i Hi. eexists. split; [reflexivity|].
    pose proof (shipped_cell_shape m i Hm Hi) as Hs.
    split; [exact Hs|].
    constructor; [|constructor].
    split; [exact template_0_shape|].
    rewrite Hs, template_0_shape. split; [congruence|].
    apply mismatch_raises. exact Hs.
  - unfold solve. rewrite (preprocess_image_ok _ _ _ _ Hd). fold m.
    cbn [seq solve_positions]. unfold extract_character. mstep.
    unfold classify, load_test_set. cbn [classify_from].
    rewrite (mismatch_raises _ (shipped_cell_shape m 0 Hm ltac:(lia))).
    reflexivity.
Qed.

(** ** Concrete inputs *)

(** An all-black capture: every interpolation of it is all-black again. *)
Definition black_capture (_ : string) : result matrix := Ok (uniform 20 70 0).

(** A library whose single template has the cell shape 20 x 10. *)
Definition white_cell_library : list matrix := [uniform 20 10 255].

Definition all_low : list log :=
  [LLowConfidence 0; LLowConfidence 1; LLowConfidence 2;
   LLowConfidence 3; LLowConfidence 4; LLowConfidence 5].

(** ** C1 *)

(** C1 (code_bug): with a template of the cell's shape that matches no
    pixel of the all-black capture, each position scores 0, is logged as
    low confidence, keeps [best_char = ''], and [solve] returns the empty
    string instead of 6 characters. *)
Theorem solve_zero_score_drops_positions :
  solve black_capture nn_resize white_cell_library "temp_captcha_0.png"
  = (all_low, Ok ""%string).
Proof. vm_compute. reflexivity. Qed.

(** ** C3 *)

(** C3 (counterexample): with an empty library and a decodable capture,
    [solve] raises nothing: it returns the empty string. *)
Lemma solve_empty_library_no_error :
  solve black_capture nn_resize [] "temp_captcha_0.png" = (all_low, Ok ""%string).
Proof. vm_compute. reflexivity. Qed.

(** C3 (amended): no check of the library exists; with an empty library,
    [solve] first decodes the image (a decode failure is logged and
    re-raised from preprocessing) and otherwise returns the empty string,
    logging a low-confidence warning for each of the 6 positions. *)
Theorem solve_empty_library decode resize path :
  solve decode resize [] path =
  match decode path with
  | Err e => ([LErrPreprocess; LErrSolve], Err e)
  | Ok _ => (all_low, Ok ""%string)
  end.
Proof.
  unfold solve, preprocess_image. destruct (decode path); reflexivity.
Qed.

(** ** C6 *)

(** C6 (counterexample): position 7 is outside [0, 5] and its window
    [70, 80) exceeds the width 70, yet [_extract_character] returns a
    20 x 0 cell. *)
Lemma extract_character_position_7 :
  extract_character (uniform 20 70 0) 7 = ([], Ok (repeat [] 20)).
Proof. reflexivity. Qed.

(** C6 (amended): [_extract_character] never raises; on an [h x w] matrix
    it returns an [h]-row cell for every integer position, and for a
    position [p >= 0] every row has [min 10 (max 0 (w - 10 p))] columns. *)
Theorem extract_character_total (m : matrix) (h w : nat) (p : Z) :
  is_rect h w m = true ->
  exists cell,
    extract_character m p = ([], Ok cell) /\
    length cell = h /\
    (0 <= p ->
     is_rect h (Z.to_nat (Z.min 10 (Z.max 0 (Z.of_nat w - 10 * p)))) cell = true).
Proof.
  intros Hm. eexists. split; [reflexivity|]. split.
  - rewrite length_map. apply is_rect_spec in Hm. apply Hm.
  - intros Hp. apply extract_rect; assumption.
Qed.

(** ** C8 *)

(** C8 (counterexample): two identical 20 x 0 cells (the cell of
    position 7) score NaN, which is not in [0, 100]. *)
Lemma match_percentage_empty_identical :
  calculate_match_percentage (repeat [] 20) (repeat [] 20) = ([], Ok NaN).
Proof. reflexivity. Qed.

Lemma filter_length_le {A} (f : A -> bool) (l : list A) :
  (length (filter f l) <= length l)%nat.
Proof. induction l as [|x l IH]; simpl; [lia|destruct (f x); simpl; lia]. Qed.

Lemma filter_length_full {A} (f : A -> bool) (l : list A) :
  length (filter f l) = length l <-> forall x, In x l -> f x = true.
Proof.
  induction l as [|x l IH]; simpl.
  - split; [intros _ y []|reflexivity].
  - pose proof (filter_length_le f l) as Hle.
    destruct (f x) eqn:Hx; simpl; split.
    + intros H y [<-|Hy]; [exact Hx|apply IH; [lia|exact Hy]].
    + intros H. f_equal. apply IH. intros y Hy. apply H. right. exact Hy.
    + intros H. lia.
    + intros H. rewrite (H x (or_introl eq_refl)) in Hx. discriminate.
Qed.

Lemma filter_length_empty {A} (f : A -> bool) (l : list A) :
  length (filter f l) = 0%nat <-> forall x, In x l -> f x = false.
Proof.
  induction l as [|x l IH]; simpl.
  - split; [intros _ y []|reflexivity].
  - destruct (f x) eqn:Hx; simpl; split.
    + discriminate.
    + intros H. rewrite (H x (or_introl eq_refl)) in Hx. discriminate.
    + intros H y [<-|Hy]; [exact Hx|apply IH; [exact H|exact Hy]].
    + intros H. apply IH. intros y Hy. apply H. right. exact Hy.
Qed.

Lemma sum_bounded (c : nat) (xs : list nat) :
  Forall (fun x => x <= c)%nat xs ->
  (fold_right plus 0 xs <= length xs * c)%nat /\
  (fold_right plus 0 xs = length xs * c <-> Forall (fun x => x = c) xs)%nat /\
  (fold_right plus 0 xs = 0 <-> Forall (fun x => x = 0) xs)%nat.
Proof.
  induction 1 as [|x xs Hx Hxs [IH1 [IH2 IH3]]]; simpl.
  - repeat split; auto; lia.
  - split; [lia|]. split; split.
    + intros H. constructor; [lia|]. apply IH2. lia.
    + intros H. inversion H; subst. apply IH2 in H3. lia.
    + intros H. constructor; [lia|]. apply IH3. lia.
    + intros H. inversion H; subst. apply IH3 in H3. lia.
Qed.

Lemma bget_rect (r c : nat) (m : matrix) (i j : nat) :
  is_rect r c m = true -> (i < r)%nat -> (j < c)%nat ->
  bget m i j = nth j (nth i m []) 0.
Proof.
  intros Hm Hi Hj. unfold bget. rewrite (shape_rect r c m Hm) by lia.
  destruct (Nat.eqb c 1) eqn:Ec; destruct (Nat.eqb r 1) eqn:Er;
    rewrite ?Nat.eqb_eq in Ec; rewrite ?Nat.eqb_eq in Er;
    try (replace j with 0%nat by lia);
    try (replace i with 0%nat by lia); reflexivity.
Qed.

Lemma mat_ext (r c : nat) (a b : matrix) :
  is_rect r c a = true -> is_rect r c b = true ->
  (forall i j, (i < r)%nat -> (j < c)%nat ->
     nth j (nth i a []) 0 = nth j (nth i b []) 0) ->
  a = b.
Proof.
  rewrite !is_rect_spec. intros [Ha Fa] [Hb Fb] H.
  apply nth_ext with (d := []) (d' := []); [congruence|].
  intros i Hi. rewrite Ha in Hi.
  rewrite Forall_forall in Fa, Fb.
  assert (Hra : length (nth i a []) = c) by (apply Fa, nth_In; lia).
  assert (Hrb : length (nth i b []) = c) by (apply Fb, nth_In; lia).
  apply nth_ext with (d := 0) (d' := 0); [congruence|].
  intros j Hj. apply H; lia.
Qed.

Lemma count_equal_rect (r c : nat) (a b : matrix) :
  is_rect r c a = true -> is_rect r c b = true ->
  (count_equal a b r c <= r * c)%nat /\
  (count_equal a b r c = (r * c)%nat <->
     forall i j, (i < r)%nat -> (j < c)%nat ->
       nth j (nth i a []) 0 = nth j (nth i b []) 0) /\
  (count_equal a b r c = 0%nat <->
     forall i j, (i < r)%nat -> (j < c)%nat ->
       nth j (nth i a []) 0 <> nth j (nth i b []) 0).
Proof.
  intros Ha Hb. unfold count_equal.
  set (g := fun i => length (filter (fun j => Z.eqb (bget a i j) (bget b i j))
                                    (seq 0 c))).
  assert (Hbound : Forall (fun x => x <= c)%nat (map g (seq 0 r))).
  { apply Forall_map, Forall_forall. intros i _. unfold g.
    rewrite <- (length_seq c 0) at 2. apply filter_length_le. }
  destruct (sum_bounded c _ Hbound) as [H1 [H2 H3]].
  rewrite length_map, length_seq in H1, H2. split; [exact H1|]. split.
  - rewrite H2, Forall_map, Forall_forall. split.
    + intros H i j Hi Hj.
      assert (Hg := H i ltac:(apply in_seq; lia)). unfold g in Hg.
      rewrite <- (length_seq c 0) in Hg at 2.
      apply filter_length_full with (x := j) in Hg; [|apply in_seq; lia].
      apply Z.eqb_eq in Hg. rewrite <- (bget_rect r c a i j Ha Hi Hj).
      rewrite <- (bget_rect r c b i j Hb Hi Hj). exact Hg.
    + intros H i Hi. apply in_seq in Hi. unfold g.
      rewrite <- (length_seq c 0) at 2. apply filter_length_full.
      intros j Hj. apply in_seq in Hj. apply Z.eqb_eq.
      rewrite (bget_rect r c a i j Ha), (bget_rect r c b i j Hb) by lia.
      apply H; lia.
  - rewrite H3, Forall_map, Forall_forall. split.
    + intros H i j Hi Hj.
      assert (Hg := H i ltac:(apply in_seq; lia)). unfold g in Hg.
      apply filter_length_empty with (x := j) in Hg; [|apply in_seq; lia].
      apply Z.eqb_neq in Hg. rewrite <- (bget_rect r c a i j Ha Hi Hj).
      rewrite <- (bget_rect r c b i j Hb Hi Hj). exact Hg.
    + intros H i Hi. apply in_seq in Hi. unfold g.
      apply filter_length_empty.
      intros j Hj. apply in_seq in Hj. apply Z.eqb_neq.
      rewrite (bget_rect r c a i j Ha), (bget_rect r c b i j Hb) by lia.
      apply H; lia.
Qed.

Lemma percent_pos (m t : nat) :
  (0 < t)%nat -> percent m t = Num ((Z.of_nat m # Pos.of_nat t) * 100).
Proof. intros Ht. unfold percent. destruct (Nat.eqb_spec t 0); [lia|reflexivity]. Qed.

Lemma pos_of_nat_Z (t : nat) : (0 < t)%nat -> Z.pos (Pos.of_nat t) = Z.of_nat t.
Proof. intros Ht. rewrite <- positive_nat_Z, Nat2Pos.id; lia. Qed.

(** C8 (amended): for two [r x c] matrices with at least one pixel, the
    score is a number in [0, 100]; it equals 100 iff the two matrices are
    equal and equals 0 iff no pixel position matches.  (For an empty shape
    it is NaN.) *)
Theorem match_percentage_bounds (r c : nat) (a b : matrix) :
  is_rect r c a = true -> is_rect r c b = true -> (0 < r * c)%nat ->
  exists q,
    calculate_match_percentage a b = ([], Ok (Num q)) /\
    (0 <= q <= 100)%Q /\
    (q == 100 <-> a = b) /\
    (q == 0 <-> forall i j, (i < r)%nat -> (j < c)%nat ->
                  nth j (nth i a []) 0 <> nth j (nth i b []) 0).
Proof.
  intros Ha Hb Hrc.
  assert (Hr : (0 < r)%nat) by (destruct r; lia).
  unfold calculate_match_percentage.
  rewrite (shape_rect r c a Ha Hr), (shape_rect r c b Hb Hr).
  unfold broadcast, bdim; cbn [fst snd]. rewrite !Nat.eqb_refl.
  unfold size. rewrite (shape_rect r c a Ha Hr). cbn [fst snd].
  rewrite percent_pos by exact Hrc.
  eexists. split; [reflexivity|].
  destruct (count_equal_rect r c a b Ha Hb) as [Hle [Hfull Hnone]].
  set (m := count_equal a b r c) in *.
  assert (Hp := pos_of_nat_Z (r * c) Hrc).
  unfold Qle, Qeq, Qmult; cbn [Qnum Qden]. rewrite !Pos2Z.inj_mul, Hp.
  split; [|split].
  - split; nia.
  - split.
    + intros H. apply (mat_ext r c); [exact Ha|exact Hb|]. apply Hfull. nia.
    + intros H. subst b.
      assert (m = r * c)%nat by (apply Hfull; auto). nia.
  - split.
    + intros H. apply Hnone. nia.
    + intros H. apply Hnone in H. rewrite H. lia.
Qed.

(** ** C9 *)

(** C9 (counterexample): 36 templates scoring 0 followed by two templates
    that tie at 100 on the 1 x 1 cell: the first of the tied ones has index
    36, beyond [char_map], and classification raises IndexError. *)
Lemma classify_tie_beyond_char_map :
  classify [[255]] (repeat [[0]] 36 ++ [[[255]]; [[255]]]) = ([], Err IndexError).
Proof. vm_compute. reflexivity. Qed.

Lemma char_at_lt (idx : nat) :
  (idx < 36)%nat ->
  exists ch, String.get idx char_map = Some ch /\
             char_at idx = ([], Ok (String ch EmptyString)).
Proof.
  intros H. unfold char_at.
  do 36 (destruct idx as [|idx]; [eexists; split; reflexivity|]). lia.
Qed.

Section Classify.

Variable cell : matrix.
Variable q : Q.

(** After the first template reaching [q]: nothing strictly greater. *)
Lemma classify_from_after (ts : list matrix) (ss : list pyfloat) (idx : nat)
  (ch : string) :
  Forall2 (fun t s => calculate_match_percentage cell t = ([], Ok s)) ts ss ->
  Forall (fun s => py_gt s (Num q) = false) ss ->
  classify_from cell ts idx (Num q) ch = ([], Ok (Num q, ch)).
Proof.
  intros H2. revert idx. induction H2 as [|t s ts ss Ht Hts IH]; intros idx Hs.
  - reflexivity.
  - inversion Hs as [|? ? Hgt Hss]; subst.
    cbn [classify_from]. rewrite Ht. mstep. rewrite Hgt. mstep. apply IH. exact Hss.
Qed.

(** Before it: the running best stays strictly below [q], and the labels
    read so far exist since the indices stay below 36. *)
Lemma classify_from_before (ts : list matrix) (ss : list pyfloat) (idx : nat)
  (best : pyfloat) (bc : string) :
  Forall2 (fun t s => calculate_match_percentage cell t = ([], Ok s)) ts ss ->
  Forall (fun s => py_gt (Num q) s = true \/ s = NaN) ss ->
  py_gt (Num q) best = true ->
  (idx + length ts <= 36)%nat ->
  exists best' bc',
    (forall rest, classify_from cell (ts ++ rest) idx best bc =
                  classify_from cell rest (idx + length ts) best' bc') /\
    py_gt (Num q) best' = true.
Proof.
  intros H2. revert idx best bc.
  induction H2 as [|t s ts ss Ht Hts IH]; intros idx best bc Hs Hb Hlen.
  - exists best, bc. split; [|exact Hb]. intros rest. rewrite Nat.add_0_r. reflexivity.
  - inversion Hs as [|? ? Hq Hss]; subst. cbn [length] in Hlen.
    destruct (py_gt s best) eqn:Hgt.
    + destruct (char_at_lt idx ltac:(lia)) as [ch [_ Hch]].
      assert (Hsq : py_gt (Num q) s = true)
        by (destruct Hq as [Hq|Hq]; [exact Hq|subst; discriminate]).
      destruct (IH (S idx) s (String ch EmptyString) Hss Hsq ltac:(lia))
        as [b' [c' [Heq Hb']]].
      exists b', c'. split; [|exact Hb'].
      intros rest. cbn [app classify_from]. rewrite Ht. mstep. rewrite Hgt, Hch.
      mstep. rewrite Heq. cbn [length]. f_equal. lia.
    + destruct (IH (S idx) best bc Hss Hb ltac:(lia)) as [b' [c' [Heq Hb']]].
      exists b', c'. split; [|exact Hb'].
      intros rest. cbn [app classify_from]. rewrite Ht. mstep. rewrite Hgt.
      rewrite Heq. cbn [length]. f_equal. lia.
Qed.

End Classify.

(** C9 (amended): when every comparison succeeds, the top score [q] is
    positive and first reached at index [j < 36] (earlier scores are NaN or
    below [q], later ones not above it), classification returns [q] with
    the label [char_map[j]]: a later template with an equal score never
    replaces it. *)
Theorem classify_first_best_wins (cell : matrix) (ts : list matrix)
  (ss : list pyfloat) (j : nat) (q : Q) :
  Forall2 (fun t s => calculate_match_percentage cell t = ([], Ok s)) ts ss ->
  nth_error ss j = Some (Num q) -> (0 < q)%Q -> (j < 36)%nat ->
  (forall i s, (i < j)%nat -> nth_error ss i = Some s ->
     py_gt (Num q) s = true \/ s = NaN) ->
  (forall i s, (j < i)%nat -> nth_error ss i = Some s ->
     py_gt s (Num q) = false) ->
  exists ch, String.get j char_map = Some ch /\
    classify cell ts = ([], Ok (Num q, String ch EmptyString)).
Proof.
  intros H2 Hj Hq Hj36 Hpre Hpost.
  destruct (nth_error_split ss j Hj) as [pre [post [Hss Hlen]]]. subst ss.
  destruct (Forall2_app_inv_r _ _ H2) as [tpre [trest [Hfpre [Hfrest Hts]]]].
  inversion Hfrest as [|t s tpost post' Ht Hfpost]; subst.
  assert (Hlen' : length tpre = length pre) by (eapply Forall2_length; exact Hfpre).
  assert (Fpre : Forall (fun s => py_gt (Num q) s = true \/ s = NaN) pre).
  { apply Forall_forall. intros x Hx. apply In_nth_error in Hx as [i Hi].
    assert (i < length pre)%nat by (apply nth_error_Some; congruence).
    apply (Hpre i); [lia|]. rewrite nth_error_app1 by lia. exact Hi. }
  assert (Fpost : Forall (fun s => py_gt s (Num q) = false) post).
  { apply Forall_forall. intros x Hx. apply In_nth_error in Hx as [i Hi].
    apply (Hpost (S (length pre + i))); [lia|].
    rewrite nth_error_app2 by lia. replace (S (length pre + i) - length pre)%nat
      with (S i) by lia. exact Hi. }
  assert (H0 : py_gt (Num q) (Num 0) = true).
  { cbn. apply negb_true_iff. destruct (Qle_bool q 0) eqn:E; [|reflexivity].
    apply Qle_bool_iff in E. exfalso. apply (Qlt_not_le _ _ Hq E). }
  destruct (classify_from_before cell q tpre pre 0 (Num 0) "" Hfpre Fpre H0
              ltac:(lia)) as [b' [c' [Heq Hb']]].
  destruct (char_at_lt (length pre) Hj36) as [ch [Hget Hch]].
  exists ch. split; [exact Hget|].
  unfold classify. rewrite Heq. cbn [classify_from]. rewrite Ht. mstep.
  rewrite Hb', Nat.add_0_l, Hlen', Hch. mstep.
  apply (classify_from_after cell q tpost post (S (length pre)) _ Hfpost Fpost).
Qed.

(** ** Login: the files on disk *)

Lemma remove_path_incl (p : string) (f : fs) : incl (remove_path p f) f.
Proof. intros x Hx. unfold remove_path in Hx. apply filter_In in Hx. apply Hx. Qed.

Lemma remove_path_absent (p : string) (f : fs) : ~ In p (remove_path p f).
Proof.
  intros Hx. unfold remove_path in Hx. apply filter_In in Hx as [_ H].
  rewrite String.eqb_refl in H. discriminate.
Qed.

Lemma path_exists_false (p : string) (f : fs) :
  path_exists p f = false -> ~ In p f.
Proof.
  intros H Hin. unfold path_exists in H.
  assert (existsb (String.eqb p) f = true)
    by (apply existsb_exists; exists p; split; [exact Hin|apply String.eqb_refl]).
  congruence.
Qed.

(** [if os.path.exists(p): os.remove(p)] *)
Lemma finally_remove (p : string) (f : fs) :
  incl (if path_exists p f then remove_path p f else f) f /\
  ~ In p (if path_exists p f then remove_path p f else f).
Proof.
  destruct (path_exists p f) eqn:E.
  - split; [apply remove_path_incl|apply remove_path_absent].
  - split; [apply incl_refl|apply path_exists_false; exact E].
Qed.

Lemma incl_cons_same (p : string) (f g : fs) :
  incl g (p :: f) -> ~ In p g -> incl g f.
Proof.
  intros H Hp x Hx. destruct (H x Hx) as [<-|Hf]; [contradiction|exact Hf].
Qed.

(** What one attempt does to the files, to [captcha_path] and to the
    control flow. *)
Lemma run_attempt_spec env k max_retries cp f :
  let '(r, cp', f', ent) := run_attempt env k max_retries cp f in
  e_attempt ent = k /\ e_fs ent = f' /\ incl f' f /\
  (e_captured ent = true ->
     cp' = Some (captcha_path_of k) /\ ~ In (captcha_path_of k) f') /\
  (e_captured ent = false -> cp' = cp) /\
  e_body ent <> BReturn false /\
  r = match cp' with
      | None => SRaise UnboundLocalError
      | Some _ =>
          match e_body ent with
          | BReturn v => SReturn v
          | BRaise e =>
              if Z.eqb (Z.of_nat k) (max_retries - 1) then SRaise e else SContinue
          end
      end.
Proof.
  set (p := captcha_path_of k).
  destruct env as [nv sh so sb db]. unfold run_attempt, attempt_body; cbn.
  destruct nv as [e|].
  - destruct cp as [p0|]; cbn.
    + destruct (finally_remove p0 f) as [Hi _].
      repeat split; auto; discriminate.
    + repeat split; auto using incl_refl; discriminate.
  - fold p.
    destruct sh as [|w e];
      [destruct so as [s|e]; [destruct sb as [e|]; [|destruct db as [e|]]|]|];
      cbn;
      try (destruct (finally_remove p (p :: f)) as [Hi Hn];
           repeat split; auto; try discriminate;
           eapply incl_cons_same; eassumption).
    destruct w.
    + destruct (finally_remove p (p :: f)) as [Hi Hn].
      repeat split; auto; try discriminate. eapply incl_cons_same; eassumption.
    + destruct (finally_remove p f) as [Hi Hn].
      repeat split; auto; discriminate.
Qed.

Lemma last_nonempty_default {A} (y d d' : A) (l : list A) :
  last (y :: l) d = last (y :: l) d'.
Proof.
  revert y. induction l as [|z l IH]; intros y; [reflexivity|].
  change (last (z :: l) d = last (z :: l) d'). apply IH.
Qed.

Lemma last_cons_default {A} (x d : A) (l : list A) : last (x :: l) d = last l x.
Proof.
  destruct l as [|y l]; [reflexivity|].
  change (last (y :: l) d = last (y :: l) x). apply last_nonempty_default.
Qed.

Lemma login_loop_cleanup envs n k max_retries cp f0 f :
  incl f f0 ->
  let '(o, ff, tr) := login_loop envs n k max_retries cp f in
  ff = last (map e_fs tr) f /\ incl ff f0 /\
  Forall (fun e => incl (e_fs e) f0 /\
                   (e_captured e = true ->
                    ~ In (captcha_path_of (e_attempt e)) (e_fs e))) tr.
Proof.
  revert k cp f. induction n as [|n IH]; intros k cp f Hf; cbn [login_loop].
  - repeat split; auto.
  - pose proof (run_attempt_spec (envs k) k max_retries cp f) as Hs.
    destruct (run_attempt (envs k) k max_retries cp f) as [[[r cp'] f'] ent].
    destruct Hs as [Ha [Hfs [Hi [Hc [_ [_ _]]]]]].
    assert (Hent : incl (e_fs ent) f0 /\
                   (e_captured ent = true ->
                    ~ In (captcha_path_of (e_attempt ent)) (e_fs ent))).
    { rewrite Hfs, Ha. split; [eapply incl_tran; eassumption|].
      intros H. apply Hc, H. }
    destruct r as [|b|e].
    + specialize (IH (S k) cp' f' (incl_tran Hi Hf)).
      destruct (login_loop envs n (S k) max_retries cp' f') as [[o ff] tr].
      destruct IH as [Hl [Hff Htr]].
      split; [|split; [exact Hff|constructor; assumption]].
      rewrite Hl. cbn [map]. rewrite last_cons_default, Hfs. reflexivity.
    + split; [cbn; symmetry; exact Hfs|].
      split; [eapply incl_tran; eassumption|]. constructor; auto.
    + split; [cbn; symmetry; exact Hfs|].
      split; [eapply incl_tran; eassumption|]. constructor; auto.
Qed.

(** ** C5 *)

(** C5: on every run of [login] (any browser behaviour, any budget, any
    files on disk), each attempt ends — [finally] having run, whether it
    returned, looped back or raised — with no file that was not already on
    disk, and, when it took the screenshot, without its own capture file;
    the files left when [login] returns or raises are those left by the
    last attempt. *)
Theorem login_removes_capture_every_attempt envs max_retries (f0 : fs) :
  let '(o, ff, tr) := login envs max_retries f0 in
  ff = last (map e_fs tr) f0 /\ incl ff f0 /\
  Forall (fun e => incl (e_fs e) f0 /\
                   (e_captured e = true ->
                    ~ In (captcha_path_of (e_attempt e)) (e_fs e))) tr.
Proof.
  unfold login. apply login_loop_cleanup, incl_refl.
Qed.

(** ** C4 *)

(** The login page never shows the username field: the wait times out. *)
Definition nav_timeout : attempt_env :=
  {| nav := Some TimeoutException; shot := ShotOk; solved := Ok ""%string;
     submit := None; dashboard := None |}.

(** The captcha is captured and solved but the dashboard never appears. *)
Definition dashboard_timeout : attempt_env :=
  {| nav := None; shot := ShotOk; solved := Ok "000000"%string;
     submit := None; dashboard := Some TimeoutException |}.

(** C4 (code_bug): with the default budget 3 and a navigation timeout on
    every attempt, the first attempt's [finally] reads the still unbound
    [captcha_path]: UnboundLocalError ends [login] after 1 attempt. *)
Theorem login_navigation_timeout_one_attempt :
  login (fun _ => nav_timeout) 3 [] =
  (Raised UnboundLocalError, [],
   [Build_entry 0 (BRaise TimeoutException) false []]).
Proof. reflexivity. Qed.

(** The sibling path: failures after the capture use the whole budget and
    the last attempt's TimeoutException is re-raised. *)
Lemma login_dashboard_timeout_three_attempts :
  login (fun _ => dashboard_timeout) 3 [] =
  (Raised TimeoutException, [],
   [Build_entry 0 (BRaise TimeoutException) true [];
    Build_entry 1 (BRaise TimeoutException) true [];
    Build_entry 2 (BRaise TimeoutException) true []]).
Proof. reflexivity. Qed.

(** ** C10 *)

(** C10 (counterexample): [login(driver, u, p, max_retries=0)] runs no
    attempt and returns False. *)
Lemma login_zero_budget_returns_false :
  login (fun _ => dashboard_timeout) 0 [] = (Returned false, [], []).
Proof. reflexivity. Qed.

Lemma login_loop_not_false envs n k max_retries cp f :
  Z.of_nat (k + n) = max_retries -> (1 <= n)%nat ->
  fst (fst (login_loop envs n k max_retries cp f)) <> Returned false.
Proof.
  revert k cp f. induction n as [|n IH]; intros k cp f Hkn Hn; [lia|].
  cbn [login_loop].
  pose proof (run_attempt_spec (envs k) k max_retries cp f) as Hs.
  destruct (run_attempt (envs k) k max_retries cp f) as [[[r cp'] f'] ent].
  destruct Hs as [_ [_ [_ [_ [_ [Hnf Hr]]]]]].
  destruct r as [|b|e].
  - destruct n as [|n].
    + exfalso. destruct cp' as [p|]; [|discriminate].
      destruct (e_body ent) as [v|e]; [discriminate|].
      replace (Z.of_nat k =? max_retries - 1) with true in Hr by (symmetry; apply Z.eqb_eq; lia).
      discriminate.
    + specialize (IH (S k) cp' f' ltac:(lia) ltac:(lia)).
      destruct (login_loop envs (S n) (S k) max_retries cp' f') as [[o ff] tr].
      exact IH.
  - cbn. intros Hb. injection Hb as ->.
    destruct cp' as [p|]; [|discriminate].
    destruct (e_body ent) as [v|e]; [|destruct (_ =? _); discriminate].
    injection Hr as <-. contradiction.
  - cbn. discriminate.
Qed.

Lemma login_loop_last_reraises envs n k max_retries cp f e c fe :
  Z.of_nat (k + n) = max_retries -> (2 <= max_retries) ->
  ((1 <= k)%nat -> cp <> None) ->
  In (Build_entry (Z.to_nat (max_retries - 1)) (BRaise e) c fe)
     (snd (login_loop envs n k max_retries cp f)) ->
  fst (fst (login_loop envs n k max_retries cp f)) = Raised e.
Proof.
  revert k cp f. induction n as [|n IH]; intros k cp f Hkn H2 Hcp Hin;
    cbn [login_loop] in *; [contradiction|].
  pose proof (run_attempt_spec (envs k) k max_retries cp f) as Hs.
  destruct (run_attempt (envs k) k max_retries cp f) as [[[r cp'] f'] ent].
  destruct Hs as [Ha [_ [_ [Hc [Hnc [_ Hr]]]]]].
  assert (Hhere : ent = Build_entry (Z.to_nat (max_retries - 1)) (BRaise e) c fe ->
                  r = SRaise e).
  { intros ->. cbn in Ha, Hc, Hnc, Hr.
    assert (Hsome : cp' <> None).
    { destruct c; [destruct (Hc eq_refl) as [-> _]; discriminate|].
      rewrite (Hnc eq_refl). apply Hcp. lia. }
    destruct cp' as [p|]; [|contradiction].
    replace (Z.of_nat k =? max_retries - 1) with true in Hr
      by (symmetry; apply Z.eqb_eq; lia).
    exact Hr. }
  destruct r as [|b|e'].
  - destruct (login_loop envs n (S k) max_retries cp' f') as [[o ff] tr] eqn:El.
    cbn in Hin |- *. destruct Hin as [Heq|Hin].
    + apply Hhere in Heq. discriminate.
    + assert (Hcp' : cp' <> None) by (destruct cp'; [discriminate|discriminate Hr]).
      specialize (IH (S k) cp' f' ltac:(lia) H2 (fun _ => Hcp')).
      rewrite El in IH. apply IH. exact Hin.
  - cbn in Hin |- *. destruct Hin as [Heq|[]].
    apply Hhere in Heq. discriminate.
  - cbn in Hin |- *. destruct Hin as [Heq|[]].
    apply Hhere in Heq. congruence.
Qed.

(** C10 (amended): [login] returns False exactly when [max_retries <= 0]
    (the loop body never runs); for every [max_retries >= 1], the default 3
    that [extract_info] uses included, it returns True or raises; and for
    [max_retries >= 2], when the last budgeted attempt fails with [e],
    [login] raises [e]. *)
Theorem login_false_only_without_budget envs max_retries (f0 : fs) :
  (max_retries <= 0 -> fst (fst (login envs max_retries f0)) = Returned false) /\
  (1 <= max_retries -> fst (fst (login envs max_retries f0)) <> Returned false) /\
  (2 <= max_retries -> forall e c fe,
     In (Build_entry (Z.to_nat (max_retries - 1)) (BRaise e) c fe)
        (snd (login envs max_retries f0)) ->
     fst (fst (login envs max_retries f0)) = Raised e).
Proof.
  unfold login. split; [|split].
  - intros H. replace (Z.to_nat max_retries) with 0%nat by lia. reflexivity.
  - intros H. apply login_loop_not_false; lia.
  - intros H e c fe Hin. apply login_loop_last_reraises with (c := c) (fe := fe);
      try lia; auto.
Qed.

(** * Witnesses: the theorems with hypotheses, applied at concrete inputs *)

Lemma preprocess_image_shape_and_threshold_witness :
  is_rect 20 70 (nn_resize (uniform 20 70 0) 70 20) = true /\
  exists m,
    preprocess_image black_capture nn_resize "temp_captcha_0.png" = ([], Ok m) /\
    is_rect 20 70 m = true /\
    (forall i j, nth j (nth i m []) 0 =
       if 128 <? nth j (nth i (nn_resize (uniform 20 70 0) 70%nat 20%nat) []) 0
       then 255 else 0) /\
    Forall (Forall (fun x => x = 0 \/ x = 255)) m.
Proof.
  split; [vm_compute; reflexivity|].
  apply (preprocess_image_shape_and_threshold black_capture nn_resize
           "temp_captcha_0.png" (uniform 20 70 0)); [reflexivity|].
  vm_compute. reflexivity.
Defined.

Lemma shipped_cells_never_match_template_shape_witness :
  is_rect 20 70 (nn_resize (uniform 20 70 0) 70 20) = true /\
  exists m,
    preprocess_image black_capture nn_resize "temp_captcha_0.png" = ([], Ok m) /\
    (forall i, (i < 6)%nat ->
       exists cell,
         extract_character m (Z.of_nat i) = ([], Ok cell) /\
         shape cell = (20%nat, 10%nat) /\
         Forall (fun t => shape t = (10%nat, 8%nat) /\ shape cell <> shape t /\
                   calculate_match_percentage cell t = ([LErrMatch], Err ValueError))
                load_test_set) /\
    solve black_capture nn_resize load_test_set "temp_captcha_0.png" =
    ([LErrMatch; LErrSolve], Err ValueError).
Proof.
  split; [vm_compute; reflexivity|].
  apply (shipped_cells_never_match_template_shape black_capture nn_resize
           "temp_captcha_0.png" (uniform 20 70 0)); [reflexivity|].
  vm_compute. reflexivity.
Defined.

Lemma extract_character_total_witness :
  is_rect 20 70 (uniform 20 70 0) = true /\
  exists cell,
    extract_character (uniform 20 70 0) 7 = ([], Ok cell) /\
    length cell = 20%nat /\
    (0 <= 7 ->
     is_rect 20 (Z.to_nat (Z.min 10 (Z.max 0 (Z.of_nat 70 - 10 * 7)))) cell = true).
Proof.
  split; [vm_compute; reflexivity|].
  apply (extract_character_total (uniform 20 70 0) 20 70 7).
  vm_compute. reflexivity.
Defined.

Lemma match_percentage_bounds_witness :
  (0 < 1 * 1)%nat /\
  exists q,
    calculate_match_percentage [[255]] [[255]] = ([], Ok (Num q)) /\
    (0 <= q <= 100)%Q /\
    (q == 100 <-> [[255]] = [[255]]) /\
    (q == 0 <-> forall i j, (i < 1)%nat -> (j < 1)%nat ->
                  nth j (nth i [[255]] []) 0 <> nth j (nth i [[255]] []) 0).
Proof.
  split; [lia|].
  apply (match_percentage_bounds 1 1 [[255]] [[255]]);
    [reflexivity|reflexivity|lia].
Defined.

Lemma classify_first_best_wins_witness :
  exists ch, String.get 1 char_map = Some ch /\
    classify [[255]] [[[0]]; [[255]]; [[255]]] =
    ([], Ok (Num ((1 # 1) * 100), String ch EmptyString)).
Proof.
  apply (classify_first_best_wins [[255]] [[[0]]; [[255]]; [[255]]]
           [Num ((0 # 1) * 100); Num ((1 # 1) * 100); Num ((1 # 1) * 100)]
           1 ((1 # 1) * 100)).
  - repeat constructor.
  - reflexivity.
  - unfold Qlt, Qmult. cbn. lia.
  - lia.
  - intros i s Hi Hs. destruct i as [|i]; [|lia].
    cbn in Hs. injection Hs as <-. left. reflexivity.
  - intros i s Hi Hs. destruct i as [|[|[|i]]]; try lia.
    + cbn in Hs. injection Hs as <-. reflexivity.
    + cbn in Hs. destruct i; discriminate.
Defined.

Lemma login_false_only_without_budget_witness :
  (3 <= 0 -> fst (fst (login (fun _ => dashboard_timeout) 3 [])) = Returned false) /\
  (1 <= 3 -> fst (fst (login (fun _ => dashboard_timeout) 3 [])) <> Returned false) /\
  (2 <= 3 -> forall e c fe,
     In (Build_entry (Z.to_nat (3 - 1)) (BRaise e) c fe)
        (snd (login (fun _ => dashboard_timeout) 3 [])) ->
     fst (fst (login (fun _ => dashboard_timeout) 3 [])) = Raised e).
Proof.
  exact (login_false_only_without_budget (fun _ => dashboard_timeout) 3 []).
Defined.

(** * Further properties of the solver *)

(** A template whose shape numpy can broadcast against a 20 x 10 cell. *)
Definition compatible (t : matrix) : bool :=
  match broadcast (20%nat, 10%nat) (shape t) with Some _ => true | None => false end.

Lemma bind_ok_inv {A B} (m : M A) (f : A -> M B) l b :
  bind m f = (l, Ok b) ->
  exists l1 a l2, m = (l1, Ok a) /\ f a = (l2, Ok b) /\ l = l1 ++ l2.
Proof.
  destruct m as [l1 [a|e]]; cbn; [|discriminate].
  destruct (f a) as [l2 r] eqn:E. intros H. injection H as <- ->.
  exists l1, a, l2. auto.
Qed.

Lemma log_reraise_ok_inv {A} msg (m : M A) l a :
  log_reraise msg m = (l, Ok a) -> m = (l, Ok a).
Proof. destruct m as [l0 [a0|e]]; cbn; [auto|]. discriminate. Qed.

Lemma py_gt_trans x y z :
  py_gt x y = true -> py_gt y z = true -> py_gt x z = true.
Proof.
  destruct x as [a| |], y as [b| |], z as [c| |]; cbn; try discriminate; auto.
  rewrite !negb_true_iff. intros H1 H2.
  destruct (Qle_bool a c) eqn:E; [|reflexivity]. exfalso.
  apply Qle_bool_iff in E.
  assert (~ a <= b)%Q by (intros Hq; apply Qle_bool_iff in Hq; congruence).
  assert (~ b <= c)%Q by (intros Hq; apply Qle_bool_iff in Hq; congruence).
  apply Qnot_le_lt in H; apply Qnot_le_lt in H0.
  apply (Qlt_not_le c a); [eapply Qlt_trans; eassumption|exact E].
Qed.

(** What a classification can end with: the initial [(0, '')], or a
    score above 0 with one character of [char_map]. *)
Definition classified (b : pyfloat) (c : string) : Prop :=
  (c = ""%string /\ b = Num 0) \/
  (exists a i, String.get i char_map = Some a /\ c = String a EmptyString /\
               py_gt b (Num 0) = true).

Lemma classify_from_classified cell ts idx best bc l b c :
  classified best bc ->
  classify_from cell ts idx best bc = (l, Ok (b, c)) -> classified b c.
Proof.
  revert idx best bc l. induction ts as [|t ts IH]; intros idx best bc l Hc H.
  - cbn in H. injection H as _ <- <-. exact Hc.
  - cbn [classify_from] in H. apply bind_ok_inv in H as [l1 [mp [l2 [_ [H _]]]]].
    destruct (py_gt mp best) eqn:Hgt.
    + apply bind_ok_inv in H as [l3 [ch [l4 [Hch [H _]]]]].
      eapply IH; [|exact H]. right.
      unfold char_at in Hch. destruct (String.get idx char_map) as [a|] eqn:Hg;
        [|discriminate].
      injection Hch as _ <-. exists a, idx. split; [exact Hg|]. split; [reflexivity|].
      destruct Hc as [[_ ->]|[_ [_ [_ [_ Hb]]]]]; [exact Hgt|].
      eapply py_gt_trans; eassumption.
    + eapply IH; eassumption.
Qed.

Lemma classify_classified cell ts l b c :
  classify cell ts = (l, Ok (b, c)) -> classified b c.
Proof.
  apply classify_from_classified. left. auto.
Qed.

Lemma solve_positions_ok ts m ps l res :
  solve_positions ts m ps = (l, Ok res) ->
  length res = length ps /\
  Forall (fun c => c = ""%string \/
            exists a i, String.get i char_map = Some a /\ c = String a EmptyString) res /\
  (forall k, (k < length ps)%nat -> nth k res ""%string = ""%string ->
             In (LLowConfidence (nth k ps 0%nat)) l).
Proof.
  revert l res. induction ps as [|i ps IH]; intros l res H.
  - cbn in H. injection H as <- <-. repeat split; auto. intros k Hk; cbn in Hk; lia.
  - cbn [solve_positions] in H.
    apply bind_ok_inv in H as [l1 [cell [l2 [_ [H ->]]]]].
    apply bind_ok_inv in H as [l3 [[b c] [l4 [Hcl [H ->]]]]].
    apply bind_ok_inv in H as [l5 [u [l6 [Hlow [H ->]]]]].
    apply bind_ok_inv in H as [l7 [rest [l8 [Hrest [H ->]]]]].
    cbn in H. injection H as <- <-.
    destruct (IH _ _ Hrest) as [Hlen [Hf Hin]].
    pose proof (classify_classified _ _ _ _ _ Hcl) as Hc.
    split; [cbn; lia|]. split.
    + constructor; [|exact Hf]. cbn.
      destruct Hc as [[-> _]|[a [j [Hg [-> _]]]]]; [left; reflexivity|].
      right. exists a, j. auto.
    + intros k Hk Hnth. apply in_or_app. right. apply in_or_app. right.
      destruct k as [|k].
      * cbn in Hnth |- *. apply in_or_app. left.
        destruct Hc as [[_ ->]|[a [j [_ [Hce _]]]]]; [|cbn in Hnth; congruence].
        cbn in Hlow. injection Hlow as <- _. left. reflexivity.
      * apply in_or_app. right. apply in_or_app. left.
        cbn in Hk, Hnth |- *. apply (Hin k); [lia|exact Hnth].
Qed.

Lemma string_length_append (s1 s2 : string) :
  String.length (s1 ++ s2) = (String.length s1 + String.length s2)%nat.
Proof. induction s1 as [|a s1 IH]; cbn; [reflexivity|]. rewrite IH. reflexivity. Qed.

Lemma concat_length_le (res : list string) :
  Forall (fun c => String.length c <= 1)%nat res ->
  (String.length (String.concat "" res) <= length res)%nat.
Proof.
  induction 1 as [|c res Hc Hres IH]; [cbn; lia|].
  destruct res as [|c' res]; cbn in *; [lia|].
  rewrite string_length_append. cbn in IH |- *. lia.
Qed.

(** X1: every solution [solve] returns is the concatenation of one label per
    position 0..5, each label empty or a single character of [char_map];
    so it has at most 6 characters, and every position that contributes no
    character has been logged as a low-confidence match. *)
Theorem solve_solution_structure decode resize ts path s :
  snd (solve decode resize ts path) = Ok s ->
  exists res,
    length res = 6%nat /\ s = String.concat "" res /\
    (String.length s <= 6)%nat /\
    Forall (fun c => c = ""%string \/
              exists a i, String.get i char_map = Some a /\ c = String a EmptyString) res /\
    (forall i, (i < 6)%nat -> nth i res ""%string = ""%string ->
               In (LLowConfidence i) (fst (solve decode resize ts path))).
Proof.
  intros H. destruct (solve decode resize ts path) as [l r] eqn:E.
  cbn in H. subst r. unfold solve in E. apply log_reraise_ok_inv in E.
  apply bind_ok_inv in E as [l1 [m [l2 [_ [E ->]]]]].
  apply bind_ok_inv in E as [l3 [res [l4 [Hres [E ->]]]]].
  cbn in E. injection E as <- <-.
  destruct (solve_positions_ok _ _ _ _ _ Hres) as [Hlen [Hf Hin]].
  rewrite length_seq in Hlen.
  exists res. split; [exact Hlen|]. split; [reflexivity|]. split.
  - rewrite <- Hlen. apply concat_length_le.
    eapply Forall_impl; [|exact Hf]. intros c [->|[a [i [_ ->]]]]; cbn; lia.
  - split; [exact Hf|]. intros i Hi Hnth. cbn [fst].
    apply in_or_app. right.
    specialize (Hin i ltac:(rewrite length_seq; lia) Hnth).
    rewrite seq_nth in Hin by lia. rewrite app_nil_r. exact Hin.
Qed.

Lemma calc_compatible (cell t : matrix) :
  shape cell = (20%nat, 10%nat) -> compatible t = true ->
  exists s, calculate_match_percentage cell t = ([], Ok s).
Proof.
  intros Hs Hc. unfold calculate_match_percentage. rewrite Hs.
  unfold compatible in Hc. destruct (broadcast _ (shape t)) as [[r c]|];
    [|discriminate].
  eexists. reflexivity.
Qed.

Lemma calc_incompatible (cell t : matrix) :
  shape cell = (20%nat, 10%nat) -> compatible t = false ->
  calculate_match_percentage cell t = ([LErrMatch], Err ValueError).
Proof.
  intros Hs Hc. unfold calculate_match_percentage. rewrite Hs.
  unfold compatible in Hc. destruct (broadcast _ (shape t)) as [[r c]|];
    [discriminate|reflexivity].
Qed.

Lemma classify_from_compatible cell ts idx best bc :
  shape cell = (20%nat, 10%nat) -> forallb compatible ts = true ->
  (idx + length ts <= 36)%nat ->
  exists b c, classify_from cell ts idx best bc = ([], Ok (b, c)).
Proof.
  revert idx best bc. induction ts as [|t ts IH]; intros idx best bc Hs Hall Hlen.
  - eexists _, _. reflexivity.
  - cbn in Hall, Hlen. apply andb_true_iff in Hall as [Ht Hts].
    destruct (calc_compatible cell t Hs Ht) as [s Hcalc].
    cbn [classify_from]. rewrite Hcalc. mstep.
    destruct (py_gt s best).
    + destruct (char_at_lt idx ltac:(lia)) as [ch [_ Hch]]. rewrite Hch. mstep.
      apply IH; [exact Hs|exact Hts|lia].
    + apply IH; [exact Hs|exact Hts|lia].
Qed.

Lemma classify_from_incompatible cell ts idx best bc :
  shape cell = (20%nat, 10%nat) -> existsb (fun t => negb (compatible t)) ts = true ->
  (idx + length ts <= 36)%nat ->
  exists l, classify_from cell ts idx best bc = (l, Err ValueError).
Proof.
  revert idx best bc. induction ts as [|t ts IH]; intros idx best bc Hs Hex Hlen;
    [discriminate|].
  cbn in Hex, Hlen. cbn [classify_from].
  destruct (compatible t) eqn:Ht.
  - cbn in Hex. destruct (calc_compatible cell t Hs Ht) as [s Hcalc].
    rewrite Hcalc. mstep.
    destruct (py_gt s best).
    + destruct (char_at_lt idx ltac:(lia)) as [ch [_ Hch]]. rewrite Hch. mstep.
      apply IH; [exact Hs|exact Hex|lia].
    + apply IH; [exact Hs|exact Hex|lia].
  - rewrite (calc_incompatible cell t Hs Ht). eexists. reflexivity.
Qed.

Lemma solve_positions_compatible ts m ps :
  is_rect 20 70 m = true -> forallb compatible ts = true ->
  (length ts <= 36)%nat -> Forall (fun i => i < 6)%nat ps ->
  exists l res, solve_positions ts m ps = (l, Ok res).
Proof.
  intros Hm Hall Hlen. induction 1 as [|i ps Hi Hps IH].
  - eexists _, _. reflexivity.
  - cbn [solve_positions]. unfold extract_character. mstep.
    destruct (classify_from_compatible
                (map (fun row => py_slice row (Z.of_nat i * 10) (Z.of_nat i * 10 + 10)) m)
                ts 0 (Num 0) "" (shipped_cell_shape m i Hm Hi) Hall ltac:(lia))
      as [b [c Hc]].
    unfold classify. rewrite Hc. mstep.
    destruct IH as [l [res Hr]].
    destruct (py_lt b (Num 50)); mstep; rewrite Hr; mstep; eexists _, _; reflexivity.
Qed.

(** X2: for a library of at most 36 templates and a decodable capture resized
    to 20 x 70: [solve] raises ValueError as soon as one template has a
    shape numpy cannot broadcast against the 20 x 10 cells, and returns a
    solution when every template can be broadcast. *)
Theorem solve_fails_iff_incompatible_template decode resize ts path g :
  decode path = Ok g ->
  is_rect 20 70 (resize g 70%nat 20%nat) = true ->
  (length ts <= 36)%nat ->
  (existsb (fun t => negb (compatible t)) ts = true ->
     snd (solve decode resize ts path) = Err ValueError) /\
  (forallb compatible ts = true ->
     exists s, snd (solve decode resize ts path) = Ok s).
Proof.
  intros Hd Hr Hlen.
  pose proof (is_rect_map _ _ binarize _ Hr) as Hm.
  set (m := map (map binarize) (resize g 70%nat 20%nat)) in *.
  unfold solve. rewrite (preprocess_image_ok _ _ _ _ Hd). fold m. mstep.
  split.
  - intros Hex. cbn [seq solve_positions]. unfold extract_character. mstep.
    destruct (classify_from_incompatible
                (map (fun row => py_slice row (Z.of_nat 0 * 10) (Z.of_nat 0 * 10 + 10)) m)
                ts 0 (Num 0) "" (shipped_cell_shape m 0 Hm ltac:(lia)) Hex
                ltac:(lia)) as [l Hc].
    unfold classify. rewrite Hc. reflexivity.
  - intros Hall.
    destruct (solve_positions_compatible ts m (seq 0 6) Hm Hall Hlen)
      as [l [res Hres]].
    + apply Forall_forall. intros i Hi. apply in_seq in Hi. lia.
    + rewrite Hres. mstep. eexists. reflexivity.
Qed.

(** * Further properties of the login loop *)

(** The attempt reaches the dashboard: every browser step succeeds. *)
Definition attempt_succeeds (env : attempt_env) : bool :=
  match nav env, shot env, solved env, submit env, dashboard env with
  | None, ShotOk, Ok _, None, None => true
  | _, _, _, _, _ => false
  end.

Lemma run_attempt_control env k max_retries cp f :
  let '(r, cp', _, ent) := run_attempt env k max_retries cp f in
  (attempt_succeeds env = true -> r = SReturn true /\ e_body ent = BReturn true) /\
  (attempt_succeeds env = false -> (nav env = None \/ cp <> None) ->
     Z.of_nat k <> max_retries - 1 -> r = SContinue /\ cp' <> None).
Proof.
  destruct env as [nv sh so sb db]. unfold run_attempt, attempt_body, attempt_succeeds.
  cbn [nav shot solved submit dashboard].
  assert (Hk : Z.of_nat k <> max_retries - 1 -> (Z.of_nat k =? max_retries - 1) = false)
    by (intros H; apply Z.eqb_neq; exact H).
  destruct nv as [e|]; destruct sh as [|[] e1]; destruct so as [s|e2];
    destruct sb as [e3|]; destruct db as [e4|]; destruct cp as [p|].
  all: cbn; split.
  all: intros H1; try discriminate; try (split; reflexivity).
  all: intros H2 H3; try (destruct H2 as [H2|H2]; [discriminate|contradiction]).
  all: rewrite (Hk H3); split; [reflexivity|discriminate].
Qed.

Lemma login_loop_numbering envs n k max_retries cp f :
  let tr := snd (login_loop envs n k max_retries cp f) in
  map e_attempt tr = seq k (length tr) /\ (length tr <= n)%nat /\
  ((1 <= n)%nat -> (1 <= length tr)%nat).
Proof.
  revert k cp f. induction n as [|n IH]; intros k cp f; cbn [login_loop].
  - cbn. repeat split; lia.
  - pose proof (run_attempt_spec (envs k) k max_retries cp f) as Hs.
    destruct (run_attempt (envs k) k max_retries cp f) as [[[r cp'] f'] ent].
    destruct Hs as [Ha _].
    destruct r as [|b|e].
    + specialize (IH (S k) cp' f').
      destruct (login_loop envs n (S k) max_retries cp' f') as [[o ff] tr].
      cbn in IH |- *. destruct IH as [Hm [Hl _]].
      rewrite Ha, Hm. repeat split; lia.
    + cbn. rewrite Ha. repeat split; lia.
    + cbn. rewrite Ha. repeat split; lia.
Qed.

(** X3: every run of [login] numbers its attempts 0, 1, 2, ... without gaps,
    makes at most [max_retries] of them, and makes at least one when
    [max_retries >= 1]. *)
Theorem login_attempts_within_budget envs max_retries (f0 : fs) :
  let tr := snd (login envs max_retries f0) in
  map e_attempt tr = seq 0 (length tr) /\
  (Z.of_nat (length tr) <= Z.max 0 max_retries) /\
  (1 <= max_retries -> (1 <= length tr)%nat).
Proof.
  unfold login. cbn zeta.
  destruct (login_loop_numbering envs (Z.to_nat max_retries) 0 max_retries None f0)
    as [Hm [Hl H1]].
  split; [exact Hm|]. split; [lia|]. intros H. apply H1. lia.
Qed.

Lemma login_loop_true_last envs n k max_retries cp f :
  fst (fst (login_loop envs n k max_retries cp f)) = Returned true ->
  exists pre e, snd (login_loop envs n k max_retries cp f) = pre ++ [e] /\
    e_body e = BReturn true /\
    Forall (fun e => exists x, e_body e = BRaise x) pre.
Proof.
  revert k cp f. induction n as [|n IH]; intros k cp f; cbn [login_loop];
    [discriminate|].
  pose proof (run_attempt_spec (envs k) k max_retries cp f) as Hs.
  destruct (run_attempt (envs k) k max_retries cp f) as [[[r cp'] f'] ent].
  destruct Hs as [_ [_ [_ [_ [_ [_ Hr]]]]]].
  destruct r as [|b|e].
  - specialize (IH (S k) cp' f').
    destruct (login_loop envs n (S k) max_retries cp' f') as [[o ff] tr].
    cbn. intros Ho. destruct (IH Ho) as [pre [e [Htr [Hb Hpre]]]].
    exists (ent :: pre), e. cbn in Htr. rewrite Htr. split; [reflexivity|].
    split; [exact Hb|]. constructor; [|exact Hpre].
    destruct cp' as [p|]; [|discriminate].
    destruct (e_body ent) as [v|x]; [discriminate|]. exists x. reflexivity.
  - cbn. intros Hb. injection Hb as ->. exists [], ent. split; [reflexivity|].
    split; [|constructor].
    destruct cp' as [p|]; [|discriminate].
    destruct (e_body ent) as [v|x]; [congruence|destruct (_ =? _); discriminate].
  - cbn. discriminate.
Qed.

(** X4: [login] returns True only from an attempt that reached the dashboard,
    and that attempt is its last: every earlier one raised. *)
Theorem login_true_stops_at_first_success envs max_retries (f0 : fs) :
  fst (fst (login envs max_retries f0)) = Returned true ->
  exists pre e, snd (login envs max_retries f0) = pre ++ [e] /\
    e_body e = BReturn true /\
    Forall (fun e => exists x, e_body e = BRaise x) pre.
Proof. unfold login. apply login_loop_true_last. Qed.

Lemma login_loop_recovers envs n kk k max_retries cp f :
  (kk <= k)%nat -> Z.of_nat (kk + n) = max_retries -> Z.of_nat k < max_retries ->
  ((1 <= kk)%nat -> cp <> None) ->
  (0%nat = kk -> (0 < k)%nat -> nav (envs 0%nat) = None) ->
  (forall i, (kk <= i < k)%nat -> attempt_succeeds (envs i) = false) ->
  attempt_succeeds (envs k) = true ->
  fst (fst (login_loop envs n kk max_retries cp f)) = Returned true /\
  length (snd (login_loop envs n kk max_retries cp f)) = S (k - kk).
Proof.
  revert kk cp f. induction n as [|n IH]; intros kk cp f Hle Hn Hk Hcp H0 Hfail Hok;
    [lia|].
  cbn [login_loop].
  pose proof (run_attempt_control (envs kk) kk max_retries cp f) as Hc.
  destruct (run_attempt (envs kk) kk max_retries cp f) as [[[r cp'] f'] ent].
  destruct Hc as [Hsucc Hcont].
  destruct (Nat.eq_dec kk k) as [->|Hne].
  - destruct (Hsucc Hok) as [-> _]. cbn. split; [reflexivity|lia].
  - assert (Hnav : nav (envs kk) = None \/ cp <> None).
    { destruct kk as [|kk']; [left; apply H0; lia|right; apply Hcp; lia]. }
    destruct (Hcont (Hfail kk ltac:(lia)) Hnav ltac:(lia)) as [-> Hcp'].
    specialize (IH (S kk) cp' f' ltac:(lia) ltac:(lia) Hk (fun _ => Hcp')
                  ltac:(lia) (fun i Hi => Hfail i ltac:(lia)) Hok).
    destruct (login_loop envs n (S kk) max_retries cp' f') as [[o ff] tr].
    cbn in IH |- *. destruct IH as [Ho Hl]. split; [exact Ho|lia].
Qed.

(** X5: retrying recovers: if attempt [k < max_retries] reaches the dashboard,
    every earlier attempt fails, and the first one fails only after the
    login page loaded (so [captcha_path] is bound), [login] returns True
    after exactly [k + 1] attempts. *)
Theorem login_recovers_after_failures envs max_retries (f0 : fs) (k : nat) :
  Z.of_nat k < max_retries ->
  ((0 < k)%nat -> nav (envs 0%nat) = None) ->
  (forall i, (i < k)%nat -> attempt_succeeds (envs i) = false) ->
  attempt_succeeds (envs k) = true ->
  fst (fst (login envs max_retries f0)) = Returned true /\
  length (snd (login envs max_retries f0)) = S k.
Proof.
  intros Hk H0 Hfail Hok. unfold login.
  replace (S k) with (S (k - 0)) by lia.
  apply login_loop_recovers; try lia; auto.
  intros i Hi. apply Hfail. lia.
Qed.

(** ** Marks extraction, extract_info and main *)

(** The dictionary the loop builds from a row with at least six cells. *)
Definition subject_of (r : list string) : subject :=
  {| s_code := nth 0 r ""%string; s_name := nth 1 r ""%string;
     s_internal := nth 2 r ""%string; s_external := nth 3 r ""%string;
     s_total := nth 4 r ""%string; s_result := nth 5 r ""%string |}.

(** The semester selection of [extract_marks] goes through. *)
Definition semester_selectable (page : marks_page) (semester : option string) : Prop :=
  match semester with
  | Some s => s = ""%string \/
      (mp_semester_select page = true /\ mp_xpath page (option_xpath s) = true)
  | None => True
  end.

Lemma row_subject_ok r : (6 <= length r)%nat -> row_subject r = Ok (subject_of r).
Proof.
  intros H.
  destruct r as [|c0 [|c1 [|c2 [|c3 [|c4 [|c5 r]]]]]]; cbn [length] in H; try lia.
  reflexivity.
Qed.

Lemma row_subject_short r : (length r < 6)%nat -> row_subject r = Err IndexError.
Proof.
  intros H.
  destruct r as [|c0 [|c1 [|c2 [|c3 [|c4 [|c5 r]]]]]]; cbn [length] in H; try lia;
    reflexivity.
Qed.

Lemma row_subject_cases r :
  row_subject r = Ok (subject_of r) \/ row_subject r = Err IndexError.
Proof.
  destruct (Nat.lt_ge_cases (length r) 6) as [H|H].
  - right. apply row_subject_short; exact H.
  - left. apply row_subject_ok; exact H.
Qed.

Lemma marks_rows_ok rows :
  Forall (fun r => (6 <= length r)%nat) rows -> marks_rows rows = Ok (map subject_of rows).
Proof.
  induction 1 as [|r rs Hr _ IH]; [reflexivity|].
  cbn [marks_rows map]. rewrite (row_subject_ok r Hr). cbn [rbind].
  rewrite IH. reflexivity.
Qed.

Lemma marks_rows_short rows :
  Exists (fun r => (length r < 6)%nat) rows -> marks_rows rows = Err IndexError.
Proof.
  induction 1 as [r rs Hr|r rs _ IH]; cbn [marks_rows].
  - rewrite (row_subject_short r Hr). reflexivity.
  - destruct (row_subject_cases r) as [E|E]; rewrite E; cbn [rbind]; [|reflexivity].
    rewrite IH. reflexivity.
Qed.

Lemma select_ok page semester :
  semester_selectable page semester ->
  match semester with
  | Some s =>
      if truthy semester then
        if mp_semester_select page then
          if mp_xpath page (option_xpath s) then Ok tt else Err WebDriverException
        else Err WebDriverException
      else Ok tt
  | None => Ok tt
  end = Ok tt.
Proof.
  destruct semester as [s|]; cbn [semester_selectable]; [|reflexivity].
  intros [->|[H1 H2]]; [reflexivity|].
  rewrite H1, H2. destruct (truthy (Some s)); reflexivity.
Qed.

Lemma extract_marks_log page semester :
  fst (extract_marks page semester) = [] \/ fst (extract_marks page semester) = [XLErrMarks].
Proof.
  unfold extract_marks.
  match goal with |- context [match ?b with Ok _ => _ | Err _ => _ end] => destruct b end;
    cbn [fst]; auto.
Qed.

Lemma login_3_not_false envs f0 : fst (fst (login envs 3 f0)) <> Returned false.
Proof.
  unfold login. change (Z.to_nat 3) with 3%nat.
  apply login_loop_not_false; [reflexivity | lia].
Qed.

(** X6: with the page loaded and the semester selected, a marks table whose
    data rows all have at least six cells gives one record per row after the
    header, in row order, each made of the first six cells of its row (extra
    cells are ignored), and nothing is logged. *)
Theorem extract_marks_rows page semester hdr rows :
  mp_get page = None -> semester_selectable page semester ->
  mp_table page = Some (hdr :: rows) ->
  Forall (fun r => (6 <= length r)%nat) rows ->
  extract_marks page semester = ([], Ok (map subject_of rows)).
Proof.
  intros Hg Hs Ht Hr. unfold extract_marks.
  rewrite Hg, (select_ok page semester Hs). cbn [rbind].
  rewrite Ht. cbn [skipn]. rewrite (marks_rows_ok rows Hr). reflexivity.
Qed.

(** X7: under the same conditions, if any data row (after the header) has
    fewer than six cells, [extract_marks] logs the error and raises
    IndexError, discarding the rows already read. *)
Theorem extract_marks_short_row page semester rows :
  mp_get page = None -> semester_selectable page semester ->
  mp_table page = Some rows ->
  Exists (fun r => (length r < 6)%nat) (skipn 1 rows) ->
  extract_marks page semester = ([XLErrMarks], Err IndexError).
Proof.
  intros Hg Hs Ht Hr. unfold extract_marks.
  rewrite Hg, (select_ok page semester Hs). cbn [rbind].
  rewrite Ht, (marks_rows_short _ Hr). reflexivity.
Qed.

(** X8: an empty semester string is falsy, so [extract_marks] treats it
    exactly like no semester: the selector is never touched. *)
Theorem extract_marks_empty_semester page :
  extract_marks page (Some ""%string) = extract_marks page None.
Proof. reflexivity. Qed.

(** X9: [extract_info] never raises its own "Failed to login after maximum
    retries" exception: with three retries, [login] never returns False. *)
Theorem extract_info_never_login_failed env semester f0 :
  let '(_, r, _, _) := extract_info env semester f0 in r <> XErr XLoginFailed.
Proof.
  unfold extract_info. destruct (ie_setup env); [discriminate|].
  pose proof (login_3_not_false (ie_login env) f0) as Hnf.
  destruct (login (ie_login env) 3 f0) as [[o f1] tr]. cbn [fst] in Hnf.
  destruct o as [[|]|e]; [|congruence|].
  - destruct (extract_marks (ie_page env) semester) as [l [d|e]];
      destruct (ie_quit env); discriminate.
  - destruct (ie_quit env); discriminate.
Qed.

(** X10: [extract_info] leaves no file on disk that was not there before
    (the captcha screenshots of every attempt are removed). *)
Theorem extract_info_no_new_files env semester f0 :
  let '(_, _, _, f1) := extract_info env semester f0 in incl f1 f0.
Proof.
  unfold extract_info. destruct (ie_setup env); [apply incl_refl|].
  unfold login.
  pose proof (login_loop_cleanup (ie_login env) (Z.to_nat 3) 0 3 None f0 f0
                (incl_refl f0)) as H.
  destruct (login_loop (ie_login env) (Z.to_nat 3) 0 3 None f0) as [[o f1] tr].
  destruct H as [_ [H _]].
  destruct o as [[|]|e].
  - destruct (extract_marks (ie_page env) semester) as [l [d|e]];
      destruct (ie_quit env); exact H.
  - destruct (ie_quit env); exact H.
  - destruct (ie_quit env); exact H.
Qed.

(** X11: when the driver starts and quits cleanly, [extract_info] re-raises
    the exception of [login] if it raised, and otherwise returns or raises
    what [extract_marks] does; [driver.quit()] runs in every case. *)
Theorem extract_info_composition env semester f0 :
  ie_setup env = None -> ie_quit env = None ->
  let '(_, r, q, _) := extract_info env semester f0 in
  q = true /\
  r = match fst (fst (login (ie_login env) 3 f0)) with
      | Raised e => XErr (XBase e)
      | Returned _ =>
          match snd (extract_marks (ie_page env) semester) with
          | Ok d => XOk d
          | Err e => XErr (XBase e)
          end
      end.
Proof.
  intros Hs Hq. unfold extract_info. rewrite Hs.
  pose proof (login_3_not_false (ie_login env) f0) as Hnf.
  destruct (login (ie_login env) 3 f0) as [[o f1] tr]. cbn [fst] in Hnf |- *.
  destruct o as [[|]|e]; [|congruence|].
  - destruct (extract_marks (ie_page env) semester) as [l [d|e]];
      rewrite Hq; cbn [snd]; split; reflexivity.
  - rewrite Hq. split; reflexivity.
Qed.

(** X12: once the driver has started, an exception from [driver.quit()] in
    the finally block replaces the outcome of [extract_info], even a
    successful list of marks. *)
Theorem extract_info_quit_overrides env semester f0 e :
  ie_setup env = None -> ie_quit env = Some e ->
  let '(_, r, q, _) := extract_info env semester f0 in
  q = true /\ r = XErr (XBase e).
Proof.
  intros Hs Hq. unfold extract_info. rewrite Hs.
  destruct (login (ie_login env) 3 f0) as [[o f1] tr].
  destruct o as [[|]|e'].
  - destruct (extract_marks (ie_page env) semester) as [l [d|e']];
      rewrite Hq; split; reflexivity.
  - rewrite Hq. split; reflexivity.
  - rewrite Hq. split; reflexivity.
Qed.

Lemma extract_info_log env semester f0 :
  let '(ls, _, _, _) := extract_info env semester f0 in ~ In XLErrMain ls.
Proof.
  unfold extract_info. destruct (ie_setup env).
  { cbn. intuition discriminate. }
  destruct (login (ie_login env) 3 f0) as [[o f1] tr].
  assert (Hm : forall l r, extract_marks (ie_page env) semester = (l, r) ->
                ~ In XLErrMain l /\ ~ In XLErrMain (l ++ [XLErrInfo])).
  { intros l r E. pose proof (extract_marks_log (ie_page env) semester) as Hl.
    rewrite E in Hl. cbn [fst] in Hl.
    destruct Hl as [->| ->]; cbn; intuition discriminate. }
  destruct o as [[|]|e].
  - destruct (extract_marks (ie_page env) semester) as [l r] eqn:E.
    destruct (Hm _ _ eq_refl) as [Hm1 Hm2].
    destruct r as [d|e]; destruct (ie_quit env); assumption.
  - destruct (ie_quit env); cbn; intuition discriminate.
  - destruct (ie_quit env); cbn; intuition discriminate.
Qed.

Definition is_print (x : effect) : bool :=
  match x with Print _ => true | WriteJson _ _ => false end.

Lemma print_subjects_shape ms :
  length (concat (map print_subject ms)) = (5 * length ms)%nat /\
  forallb is_print (concat (map print_subject ms)) = true.
Proof.
  induction ms as [|m ms [IH1 IH2]]; [split; reflexivity|].
  cbn [map concat]. rewrite length_app, forallb_app, IH1, IH2.
  cbn [print_subject length forallb is_print andb]. split; [lia|reflexivity].
Qed.

(** X13: [main] exits with status 0 or 1; with status 1 it has logged
    "Error: ..." last and printed or written nothing, and with status 0 it has
    logged no such error. *)
Theorem main_exit_status env a f0 :
  let '(ls, effs, code) := main env a f0 in
  (code = 0 \/ code = 1) /\
  (code = 1 -> effs = [] /\ last ls XLSaved = XLErrMain) /\
  (code = 0 -> ~ In XLErrMain ls).
Proof.
  unfold main.
  pose proof (extract_info_log (me_info env) (a_semester a) f0) as Hl.
  destruct (extract_info (me_info env) (a_semester a) f0) as [[[ls r] q] f1].
  assert (Hlast : last (ls ++ [XLErrMain]) XLSaved = XLErrMain)
    by (rewrite last_last; reflexivity).
  assert (Hsaved : ~ In XLErrMain (ls ++ [XLSaved]))
    by (rewrite in_app_iff; cbn; intuition discriminate).
  destruct r as [[|m ms]|e].
  - repeat split; try lia; auto.
  - destruct (a_output a) as [p|]; [destruct (truthy (Some p)); [destruct (me_open env)|]|].
    all: repeat split; try lia; auto; discriminate.
  - repeat split; auto; discriminate.
Qed.

(** X14: when [extract_info] returns a non-empty list and no (or an empty)
    [--output] is given, [main] prints five lines per subject, writes no file
    and exits with status 0. *)
Theorem main_prints_subjects env a f0 ms :
  snd (fst (fst (extract_info (me_info env) (a_semester a) f0))) = XOk ms ->
  ms <> [] -> truthy (a_output a) = false ->
  let '(_, effs, code) := main env a f0 in
  length effs = (5 * length ms)%nat /\ forallb is_print effs = true /\ code = 0.
Proof.
  intros Hr Hne Ho. unfold main.
  destruct (extract_info (me_info env) (a_semester a) f0) as [[[ls r] q] f1].
  cbn [fst snd] in Hr. subst r.
  destruct (print_subjects_shape ms) as [H1 H2].
  destruct ms as [|m ms]; [congruence|].
  destruct (a_output a) as [p|]; [rewrite Ho|]; auto.
Qed.

(** X15: when [extract_info] returns a non-empty list and a non-empty
    [--output] path that opens, [main] writes the whole list to that path as
    its only output, logs the save and exits with status 0. *)
Theorem main_writes_json env a f0 ms p :
  snd (fst (fst (extract_info (me_info env) (a_semester a) f0))) = XOk ms ->
  ms <> [] -> a_output a = Some p -> p <> ""%string -> me_open env = None ->
  let '(ls, effs, code) := main env a f0 in
  effs = [WriteJson p ms] /\ last ls XLErrMain = XLSaved /\ code = 0.
Proof.
  intros Hr Hne Ho Hp Hopen. unfold main.
  destruct (extract_info (me_info env) (a_semester a) f0) as [[[ls r] q] f1].
  cbn [fst snd] in Hr. subst r.
  destruct ms as [|m ms]; [congruence|].
  rewrite Ho. cbn [truthy].
  destruct (String.eqb p "") eqn:E; [apply String.eqb_eq in E; congruence|].
  cbn [negb]. rewrite Hopen. rewrite last_last. auto.
Qed.

(** X16: an empty list of marks is falsy: [main] then prints nothing, creates
    no output file even when [--output] is given, and exits with status 0. *)
Theorem main_empty_marks_silent env a f0 :
  snd (fst (fst (extract_info (me_info env) (a_semester a) f0))) = XOk [] ->
  let '(_, effs, code) := main env a f0 in effs = [] /\ code = 0.
Proof.
  intros Hr. unfold main.
  destruct (extract_info (me_info env) (a_semester a) f0) as [[[ls r] q] f1].
  cbn [fst snd] in Hr. subst r. auto.
Qed.

(** ** Concrete inputs for the properties above *)

(** An attempt that gets through to the dashboard. *)
Definition success_env : attempt_env :=
  {| nav := None; shot := ShotOk; solved := Ok "123456"%string;
     submit := None; dashboard := None |}.

(** Two dashboard timeouts, then success. *)
Definition third_time_lucky (i : nat) : attempt_env :=
  if Nat.ltb i 2 then dashboard_timeout else success_env.

Definition marks_header : list string :=
  ["Code"; "Subject"; "Internal"; "External"; "Total"; "Result"]%string.

Definition marks_row : list string :=
  ["CS6101"; "Compilers"; "38"; "52"; "90"; "PASS"; "extra"]%string.

Definition page_with (rows : list (list string)) : marks_page :=
  {| mp_get := None; mp_semester_select := false; mp_xpath := fun _ => false;
     mp_table := Some rows |}.

Definition info_with (rows : list (list string)) (q : option exn) : info_env :=
  {| ie_setup := None; ie_login := third_time_lucky; ie_page := page_with rows;
     ie_quit := q |}.

Definition main_with (rows : list (list string)) : main_env :=
  {| me_info := info_with rows None; me_open := None |}.

(** A page offering every semester in its selector. *)
Definition semester_page (rows : list (list string)) : marks_page :=
  {| mp_get := None; mp_semester_select := true; mp_xpath := fun _ => true;
     mp_table := Some rows |}.

Definition cli (out : option string) : args :=
  {| a_username := "user"; a_password := "secret"; a_semester := None;
     a_output := out |}.

Lemma solve_solution_structure_witness :
  exists res, length res = 6%nat /\
    ""%string = String.concat "" res /\ (String.length "" <= 6)%nat /\
    Forall (fun c => c = ""%string \/
              exists a i, String.get i char_map = Some a /\ c = String a EmptyString) res /\
    (forall i, (i < 6)%nat -> nth i res ""%string = ""%string ->
       In (LLowConfidence i)
          (fst (solve black_capture nn_resize white_cell_library "temp_captcha_0.png"))).
Proof.
  apply (solve_solution_structure black_capture nn_resize white_cell_library
           "temp_captcha_0.png" ""%string).
  vm_compute. reflexivity.
Defined.

Lemma solve_fails_iff_incompatible_template_witness :
  (existsb (fun t => negb (compatible t)) load_test_set = true ->
   snd (solve black_capture nn_resize load_test_set "temp_captcha_0.png") = Err ValueError) /\
  (forallb compatible load_test_set = true ->
   exists s, snd (solve black_capture nn_resize load_test_set "temp_captcha_0.png") = Ok s).
Proof.
  apply (solve_fails_iff_incompatible_template black_capture nn_resize load_test_set
           "temp_captcha_0.png" (uniform 20 70 0)).
  - reflexivity.
  - vm_compute. reflexivity.
  - cbn. lia.
Defined.

Lemma login_true_stops_at_first_success_witness :
  exists pre e, snd (login third_time_lucky 3 []) = pre ++ [e] /\
    e_body e = BReturn true /\ Forall (fun e => exists x, e_body e = BRaise x) pre.
Proof.
  apply (login_true_stops_at_first_success third_time_lucky 3 []).
  vm_compute. reflexivity.
Defined.

Lemma login_recovers_after_failures_witness :
  fst (fst (login third_time_lucky 3 [])) = Returned true /\
  length (snd (login third_time_lucky 3 [])) = 3%nat.
Proof.
  apply (login_recovers_after_failures third_time_lucky 3 [] 2).
  - lia.
  - intros _. reflexivity.
  - intros i Hi. destruct i as [|[|i]]; [reflexivity|reflexivity|lia].
  - reflexivity.
Defined.

Lemma extract_marks_rows_witness :
  extract_marks (semester_page [marks_header; marks_row]) (Some "Semester 5"%string) =
  ([], Ok (map subject_of [marks_row])) /\
  extract_marks (page_with [marks_header; marks_row]) None =
  ([], Ok (map subject_of [marks_row])).
Proof.
  split.
  - apply (extract_marks_rows (semester_page [marks_header; marks_row])
             (Some "Semester 5"%string) marks_header [marks_row]).
    + reflexivity.
    + right. split; reflexivity.
    + reflexivity.
    + repeat constructor; cbn; lia.
  - apply (extract_marks_rows (page_with [marks_header; marks_row]) None
             marks_header [marks_row]).
    + reflexivity.
    + exact I.
    + reflexivity.
    + repeat constructor; cbn; lia.
Defined.

Lemma extract_marks_short_row_witness :
  extract_marks (page_with [marks_header; marks_row; ["CS6102"; "Networks"]%string])
    (Some ""%string) = ([XLErrMarks], Err IndexError).
Proof.
  apply (extract_marks_short_row
           (page_with [marks_header; marks_row; ["CS6102"; "Networks"]%string])
           (Some ""%string)
           [marks_header; marks_row; ["CS6102"; "Networks"]%string]).
  - reflexivity.
  - left. reflexivity.
  - reflexivity.
  - cbn [skipn]. apply Exists_cons_tl, Exists_cons_hd. cbn. lia.
Defined.

Lemma extract_info_composition_witness :
  let '(_, r, q, _) := extract_info (info_with [marks_header; marks_row] None) None [] in
  q = true /\
  r = match fst (fst (login third_time_lucky 3 [])) with
      | Raised e => XErr (XBase e)
      | Returned _ =>
          match snd (extract_marks (page_with [marks_header; marks_row]) None) with
          | Ok d => XOk d
          | Err e => XErr (XBase e)
          end
      end.
Proof.
  apply (extract_info_composition (info_with [marks_header; marks_row] None) None []);
    reflexivity.
Defined.

Lemma extract_info_quit_overrides_witness :
  let '(_, r, q, _) :=
    extract_info (info_with [marks_header; marks_row] (Some WebDriverException)) None [] in
  q = true /\ r = XErr (XBase WebDriverException).
Proof.
  apply (extract_info_quit_overrides
           (info_with [marks_header; marks_row] (Some WebDriverException)) None []
           WebDriverException); reflexivity.
Defined.

Lemma main_prints_subjects_witness :
  let '(_, effs, code) := main (main_with [marks_header; marks_row]) (cli (Some ""%string)) [] in
  length effs = (5 * length [subject_of marks_row])%nat /\
  forallb is_print effs = true /\ code = 0.
Proof.
  apply (main_prints_subjects (main_with [marks_header; marks_row]) (cli (Some ""%string)) []
           [subject_of marks_row]).
  - vm_compute. reflexivity.
  - discriminate.
  - reflexivity.
Defined.

Lemma main_writes_json_witness :
  let '(ls, effs, code) := main (main_with [marks_header; marks_row]) (cli (Some "marks.json"%string)) [] in
  effs = [WriteJson "marks.json" [subject_of marks_row]] /\
  last ls XLErrMain = XLSaved /\ code = 0.
Proof.
  apply (main_writes_json (main_with [marks_header; marks_row]) (cli (Some "marks.json"%string)) []
           [subject_of marks_row] "marks.json").
  - vm_compute. reflexivity.
  - discriminate.
  - reflexivity.
  - discriminate.
  - reflexivity.
Defined.

Lemma main_empty_marks_silent_witness :
  let '(_, effs, code) :=
    main {| me_info := info_with [marks_header] None; me_open := None |}
         (cli (Some "marks.json"%string)) [] in
  effs = [] /\ code = 0.
Proof.
  apply (main_empty_marks_silent
           {| me_info := info_with [marks_header] None; me_open := None |}
           (cli (Some "marks.json"%string)) []).
  vm_compute. reflexivity.
Defined.
